(** * pj_tflite_pose_movenet: the ImageProcessor facade

    A shallow embedding of [image_processor.cpp] (the process-wide pose
    session and its skeleton overlay) together with the [PoseEngine]
    interface declared in [pose_engine.h].

    - C++ [float] and [double] values are IEEE-754 binary32 / binary64
      numbers, represented by [spec_float] and the operations of
      [SpecFloat] at the matching precision.
    - [int32_t] values are integers in [Z]; the one narrowing conversion of
      the code ([static_cast<int32_t>] of a [size_t]) has its wrap-around
      written out.
    - [std::vector::operator[]] outside the vector and a float-to-int
      conversion whose value does not fit are undefined behaviour in C++;
      the embedding makes both an explicit [Undefined] outcome.
    - [cv::Mat] is the frame size plus the ordered list of drawing calls
      applied to the pixel buffer; OpenCV's rasteriser is not modelled.
    - [PRINT_E] output is returned by every facade call as a list of
      format strings with their arguments. *)

From Stdlib Require Import ZArith List String Bool Lia.
From Stdlib Require Import Floats.SpecFloat.
Import ListNotations.

Local Open Scope Z_scope.

(** ** Numbers *)

(** C++ [float]: binary32. *)
Module Float32.
Definition prec : Z := 24.
Definition emax : Z := 128.

Definition of_Z (z : Z) : spec_float := binary_normalize prec emax z 0 false.
Definition div : spec_float -> spec_float -> spec_float := SFdiv prec emax.

(** [a >= b]: false when the operands are unordered (a NaN). *)
Definition ge (a b : spec_float) : bool :=
  match SFcompare a b with
  | Some Gt | Some Eq => true
  | _ => false
  end.

(** [a < b]. *)
Definition lt (a b : spec_float) : bool := SFltb a b.
End Float32.

(** C++ [double]: binary64. *)
Module Float64.
Definition prec : Z := 53.
Definition emax : Z := 1024.

Definition of_Z (z : Z) : spec_float := binary_normalize prec emax z 0 false.
Definition div : spec_float -> spec_float -> spec_float := SFdiv prec emax.
End Float64.

Definition float : Type := spec_float.
Definition double : Type := spec_float.

Definition INT32_MIN : Z := - 2 ^ 31.
Definition INT32_MAX : Z := 2 ^ 31 - 1.

(** [static_cast<int32_t>] of an integer: reduction modulo 2^32 into the
    signed range. *)
Definition wrap_int32 (z : Z) : Z := (z + 2 ^ 31) mod 2 ^ 32 - 2 ^ 31.

(** ** Outcomes of code that can leave defined behaviour *)

Inductive Fault : Type :=
| OutOfRange      (* operator[] with an index that is not below size() *)
| FloatToInt.     (* floating value whose truncation is not an int32_t *)

Inductive Outcome (A : Type) : Type :=
| Returns (a : A)
| Undefined (why : Fault).

Arguments Returns {A} a.
Arguments Undefined {A} why.

Definition bind {A B : Type} (m : Outcome A) (k : A -> Outcome B) : Outcome B :=
  match m with
  | Returns a => k a
  | Undefined why => Undefined why
  end.

Declare Scope outcome_scope.
Delimit Scope outcome_scope with outcome.
Notation "x <- m ;; k" := (bind m (fun x => k))
  (at level 61, m at next level, right associativity) : outcome_scope.

(** A range-based [for] whose body threads one value through. *)
Fixpoint for_each {A S : Type} (body : S -> A -> Outcome S) (l : list A) (s : S)
  : Outcome S :=
  match l with
  | [] => Returns s
  | a :: l' => bind (body s a) (for_each body l')
  end.

(** [v[i]] for a [std::vector] and an integer index converted to [size_t]. *)
Definition index {A : Type} (v : list A) (i : Z) : Outcome A :=
  if (0 <=? i) && (i <? Z.of_nat (List.length v)) then
    match nth_error v (Z.to_nat i) with
    | Some a => Returns a
    | None => Undefined OutOfRange
    end
  else Undefined OutOfRange.

(** The indices [0, 1, ..., n-1] visited by [for (int32_t i = 0; i < n; i++)]. *)
Definition upto (n : Z) : list Z := map Z.of_nat (seq 0 (Z.to_nat n)).

(** Truncation toward zero of a floating value, when it has one. *)
Definition truncate (f : float) : option Z :=
  match f with
  | S754_zero _ => Some 0
  | S754_finite s m e => Some (cond_Zopp s (Z.shiftl (Zpos m) e))
  | S754_infinity _ | S754_nan => None
  end.

(** Implicit conversion [float] -> [int32_t] (and [float] -> [int] in the
    arguments of [cv::Point]). *)
Definition to_int32 (f : float) : Outcome Z :=
  match truncate f with
  | Some z => if (INT32_MIN <=? z) && (z <=? INT32_MAX) then Returns z
              else Undefined FloatToInt
  | None => Undefined FloatToInt
  end.

(** ** Frames and drawing primitives *)

Record Point : Type := cv_Point { pt_x : Z; pt_y : Z }.

(** [CommonHelper::CreateCvColor] is called with three channel values; the
    colour is kept as the arguments given. *)
Record Scalar : Type := CreateCvColor { ch0 : Z; ch1 : Z; ch2 : Z }.

(** The character buffer filled by [snprintf]: the format and its
    floating arguments. *)
Record Text : Type := snprintf { format : string; values : list double }.

Inductive DrawCall : Type :=
| cv_line (pt1 pt2 : Point) (color : Scalar) (thickness : Z)
| cv_circle (center : Point) (radius : Z) (color : Scalar) (thickness : Z)
| DrawText (text : Text) (pos : Point) (font_scale : double) (thickness : Z)
           (color_front color_back : Scalar) (is_text_on_rect : bool).

Record Mat : Type := mkMat {
  cols : Z;
  rows : Z;
  drawn : list DrawCall   (* oldest call first *)
}.

Definition draw (mat : Mat) (c : DrawCall) : Mat :=
  {| cols := cols mat; rows := rows mat; drawn := drawn mat ++ [c] |}.

(** ** pose_engine.h *)

Definition kRetOk : Z := 0.
Definition kRetErr : Z := -1.

Record Result_ : Type := mkResult_ {
  pose_scores : list float;                         (* [body] *)
  pose_keypoint_scores : list (list float);         (* [body][part] *)
  pose_keypoint_coords : list (list (float * float)); (* [body][part][x, y] (0 - 1.0) *)
  time_pre_process : double;
  time_inference : double;
  time_post_process : double
}.

Definition double_zero : double := S754_zero false.

(** [Result_()]: empty vectors, the three times set to 0. *)
Definition Result_ctor : Result_ :=
  {| pose_scores := []; pose_keypoint_scores := []; pose_keypoint_coords := [];
     time_pre_process := double_zero; time_inference := double_zero;
     time_post_process := double_zero |}.

(** The public interface of [class PoseEngine]; its member functions are
    defined outside this translation unit.  A member function receives the
    object and returns it updated; [Process] also receives and returns the
    [Result&] it may fill. *)
Class PoseEngineOps (PoseEngine : Type) : Type := {
  PoseEngine_ctor : PoseEngine;
  PoseEngine_Initialize : PoseEngine -> string -> Z -> Z * PoseEngine;
  PoseEngine_Finalize : PoseEngine -> Z * PoseEngine;
  PoseEngine_Process : PoseEngine -> Mat -> Result_ -> Z * Result_ * PoseEngine
}.

(** ** image_processor.h (as used by image_processor.cpp) *)

Record InputParam : Type := mkInputParam { work_dir : string; num_threads : Z }.

Record Result : Type := mkResult {
  r_time_pre_process : double;
  r_time_inference : double;
  r_time_post_process : double
}.

(** One [PRINT_E(fmt, args...)]. *)
Record Message : Type := PRINT_E { fmt : string; args : list Z }.

(** ** image_processor.cpp *)

Definition score_threshold : float := S754_finite false 13421773 (-26).

Definition jointLineList : list (Z * Z) :=
  [ (* face *)
    (0, 2); (2, 4); (0, 1); (1, 3);
    (* body *)
    (6, 5); (5, 11); (11, 12); (12, 6);
    (* arm *)
    (6, 8); (8, 10); (5, 7); (7, 9);
    (* leg *)
    (12, 14); (14, 16); (11, 13); (13, 15) ].

Definition color_line : Scalar := CreateCvColor 200 200 200.
Definition color_circle : Scalar := CreateCvColor 0 255 0.

Definition double_half : double := S754_finite false 4503599627370496 (-53).

Section ImageProcessor.
Context {PoseEngine : Type} {engine_ops : PoseEngineOps PoseEngine}.

(** [std::chrono::steady_clock::now()]: the [n]-th reading of the clock
    made by this translation unit, in nanoseconds. *)
Variable steady_clock_now : nat -> Z.

(** The objects with static storage duration: the global
    [s_pose_engine], the function-local [time_previous] of [DrawFps]
    (not yet initialised before the first call), and the number of clock
    readings made so far. *)
Record Statics : Type := mkStatics {
  s_pose_engine : option PoseEngine;
  time_previous : option Z;
  clock_reads : nat
}.

Definition with_engine (st : Statics) (p : option PoseEngine) : Statics :=
  {| s_pose_engine := p; time_previous := time_previous st;
     clock_reads := clock_reads st |}.

(** What a facade call leaves behind: the returned [int32_t], the
    [PRINT_E] output and the statics. *)
Record Call : Type := mkCall {
  ret : Z;
  printed : list Message;
  after : Statics
}.

(** The same for [Process], with the two reference parameters. *)
Record ProcessCall : Type := mkProcessCall {
  p_ret : Z;
  p_printed : list Message;
  p_after : Statics;
  p_mat : Mat;
  p_result : Result
}.

(** The parameters [pos], [font_scale], [thickness], [color_front],
    [color_back] and [is_text_on_rect] of the C++ function are not used
    by its body and are left out. *)
Definition DrawFps (st : Statics) (mat : Mat) (time_inference : double)
  : Statics * Mat :=
  let '(previous, reads) :=
    match time_previous st with
    | Some t => (t, clock_reads st)
    | None => (steady_clock_now (clock_reads st), S (clock_reads st))
    end in
  let time_now := steady_clock_now reads in
  let fps := Float64.div (Float64.of_Z 1000000000)
                         (Float64.of_Z (time_now - previous)) in
  let text := snprintf "FPS: %.1f, Inference: %.1f [ms]" [fps; time_inference] in
  ({| s_pose_engine := s_pose_engine st; time_previous := Some time_now;
      clock_reads := S reads |},
   draw mat (DrawText text (cv_Point 0 0) double_half 2
                      (CreateCvColor 0 0 0) (CreateCvColor 180 180 180) true)).

Definition Initialize (st : Statics) (input_param : InputParam) : Call :=
  match s_pose_engine st with
  | Some _ =>
      {| ret := -1; printed := [PRINT_E "Already initialized\n" []]; after := st |}
  | None =>
      let '(r, engine) :=
        PoseEngine_Initialize PoseEngine_ctor (work_dir input_param)
                              (num_threads input_param) in
      let st' := with_engine st (Some engine) in
      if negb (r =? kRetOk) then {| ret := -1; printed := []; after := st' |}
      else {| ret := 0; printed := []; after := st' |}
  end.

Definition Finalize (st : Statics) : Call :=
  match s_pose_engine st with
  | None =>
      {| ret := -1; printed := [PRINT_E "Not initialized\n" []]; after := st |}
  | Some engine =>
      let '(r, engine') := PoseEngine_Finalize engine in
      let st' := with_engine st (Some engine') in
      if negb (r =? kRetOk) then {| ret := -1; printed := []; after := st' |}
      else {| ret := 0; printed := []; after := st' |}
  end.

Definition Command (st : Statics) (cmd : Z) : Call :=
  match s_pose_engine st with
  | None =>
      {| ret := -1; printed := [PRINT_E "Not initialized\n" []]; after := st |}
  | Some _ =>
      match cmd with
      | 0 | _ =>
          {| ret := -1;
             printed := [PRINT_E "command(%d) is not supported\n" [cmd]];
             after := st |}
      end
  end.

(** Body of the loop over [jointLineList]. *)
Definition draw_joint_line (score_list : list float)
           (part_list : list (float * float)) (mat : Mat) (jointLine : Z * Z)
  : Outcome Mat :=
  (s0 <- index score_list (fst jointLine) ;;
   if Float32.ge s0 score_threshold then
     s1 <- index score_list (snd jointLine) ;;
     if Float32.ge s1 score_threshold then
       p0 <- index part_list (fst jointLine) ;;
       x0 <- to_int32 (fst p0) ;;
       p0' <- index part_list (fst jointLine) ;;
       y0 <- to_int32 (snd p0') ;;
       p1 <- index part_list (snd jointLine) ;;
       x1 <- to_int32 (fst p1) ;;
       p1' <- index part_list (snd jointLine) ;;
       y1 <- to_int32 (snd p1') ;;
       Returns (draw mat (cv_line (cv_Point x0 y0) (cv_Point x1 y1) color_line 2))
     else Returns mat
   else Returns mat)%outcome.

(** Body of the loop over the parts. *)
Definition draw_keypoint (score_list : list float)
           (part_list : list (float * float)) (mat : Mat) (i : Z)
  : Outcome Mat :=
  (score <- index score_list i ;;
   if Float32.ge score score_threshold then
     p <- index part_list i ;;
     x <- to_int32 (fst p) ;;
     p' <- index part_list i ;;
     y <- to_int32 (snd p') ;;
     Returns (draw mat (cv_circle (cv_Point x y) 5 color_circle (-1)))
   else Returns mat)%outcome.

(** The block under "Draw the result", up to the call of [DrawFps]. *)
Definition draw_result (pose_result : Result_) (mat : Mat) : Outcome Mat :=
  (score_list <- index (pose_keypoint_scores pose_result) 0 ;;
   part_list <- index (pose_keypoint_coords pose_result) 0 ;;
   let part_num := wrap_int32 (Z.of_nat (List.length part_list)) in
   mat1 <- for_each (draw_joint_line score_list part_list) jointLineList mat ;;
   for_each (draw_keypoint score_list part_list) (upto part_num) mat1)%outcome.

Definition Process (st : Statics) (mat : Mat) (result : Result)
  : Outcome ProcessCall :=
  match s_pose_engine st with
  | None =>
      Returns {| p_ret := -1; p_printed := [PRINT_E "Not initialized\n" []];
                 p_after := st; p_mat := mat; p_result := result |}
  | Some engine =>
      let '(r, pose_result, engine') := PoseEngine_Process engine mat Result_ctor in
      let st1 := with_engine st (Some engine') in
      if negb (r =? kRetOk) then
        Returns {| p_ret := -1; p_printed := []; p_after := st1;
                   p_mat := mat; p_result := result |}
      else
        (mat2 <- draw_result pose_result mat ;;
         let '(st2, mat3) := DrawFps st1 mat2 (time_inference pose_result) in
         Returns {| p_ret := 0; p_printed := []; p_after := st2; p_mat := mat3;
                    p_result :=
                      {| r_time_pre_process := time_pre_process pose_result;
                         r_time_inference := time_inference pose_result;
                         r_time_post_process := time_post_process pose_result |}
                 |})%outcome
  end.
End ImageProcessor.

Arguments Statics PoseEngine : clear implicits.
Arguments Call PoseEngine : clear implicits.
Arguments ProcessCall PoseEngine : clear implicits.

(** ** The pose engine behind the interface *)

Module SpecEngine.
Section Engine.
(** The two capabilities the engine delegates to: whether the model
    file under a working directory loads with a thread count, and the
    pre-process / invoke / decode pipeline on a non-empty frame
    ([None] when the adapter invocation fails). *)
Variable model_loads : string -> Z -> bool.
Variable run_pipeline : Mat -> option Result_.

(** Modelled from the spec: the state of a PoseEngine, whose member
    functions are not part of image_processor.cpp.  The engine owns at
    most one adapter; [inference_helper_] holds the working directory
    and thread count it was loaded with. *)
Record PoseEngine : Type := mkPoseEngine {
  inference_helper_ : option (string * Z)
}.

(** Modelled from the spec: a new PoseEngine owns no adapter. *)
Definition ctor : PoseEngine := {| inference_helper_ := None |}.

(** Modelled from the spec: PoseEngine::Initialize loads the model and
    fails if the model does not load or if the engine is already
    initialized. *)
Definition Initialize (e : PoseEngine) (work_dir : string) (num_threads : Z)
  : Z * PoseEngine :=
  match inference_helper_ e with
  | Some _ => (kRetErr, e)
  | None =>
      if model_loads work_dir num_threads
      then (kRetOk, {| inference_helper_ := Some (work_dir, num_threads) |})
      else (kRetErr, e)
  end.

(** Modelled from the spec: PoseEngine::Finalize releases the adapter
    and fails if called before Initialize. *)
Definition Finalize (e : PoseEngine) : Z * PoseEngine :=
  match inference_helper_ e with
  | None => (kRetErr, e)
  | Some _ => (kRetOk, {| inference_helper_ := None |})
  end.

(** Modelled from the spec: PoseEngine::Process fails if the engine is
    not initialized, if the frame has zero area, or if the adapter
    invocation fails; otherwise it fills the result. *)
Definition Process (e : PoseEngine) (original_mat : Mat) (result : Result_)
  : Z * Result_ * PoseEngine :=
  match inference_helper_ e with
  | None => (kRetErr, result, e)
  | Some _ =>
      if (cols original_mat <=? 0) || (rows original_mat <=? 0)
      then (kRetErr, result, e)
      else match run_pipeline original_mat with
           | Some r => (kRetOk, r, e)
           | None => (kRetErr, result, e)
           end
  end.

(** Modelled from the spec: the four members above as the implementation
    of the interface of pose_engine.h. *)
Definition ops : PoseEngineOps PoseEngine :=
  {| PoseEngine_ctor := ctor;
     PoseEngine_Initialize := Initialize;
     PoseEngine_Finalize := Finalize;
     PoseEngine_Process := Process |}.
End Engine.
End SpecEngine.

(** ** Vocabulary of the statements *)

(** Keypoint [i] of a score list clears the threshold. *)
Definition clears (score_list : list float) (i : Z) : bool :=
  match index score_list i with
  | Returns s => Float32.ge s score_threshold
  | Undefined _ => false
  end.

(** Both endpoints of a joint line clear the threshold. *)
Definition both_clear (score_list : list float) (jointLine : Z * Z) : bool :=
  clears score_list (fst jointLine) && clears score_list (snd jointLine).

(** Every score of the list is below the threshold. *)
Definition all_below (score_list : list float) : Prop :=
  forall i s, index score_list i = Returns s ->
              Float32.lt s score_threshold = true.

(** The pixel at which the code places keypoint [i]. *)
Definition pixel (part_list : list (float * float)) (i : Z) : Outcome Point :=
  (p <- index part_list i ;;
   x <- to_int32 (fst p) ;;
   y <- to_int32 (snd p) ;;
   Returns (cv_Point x y))%outcome.

Definition line_of (part_list : list (float * float)) (jointLine : Z * Z)
           (c : DrawCall) : Prop :=
  exists p0 p1,
    pixel part_list (fst jointLine) = Returns p0 /\
    pixel part_list (snd jointLine) = Returns p1 /\
    c = cv_line p0 p1 color_line 2.

Definition marker_of (part_list : list (float * float)) (i : Z)
           (c : DrawCall) : Prop :=
  exists p, pixel part_list i = Returns p /\
            c = cv_circle p 5 color_circle (-1).

Definition is_line (c : DrawCall) : bool :=
  match c with cv_line _ _ _ _ => true | _ => false end.
Definition is_circle (c : DrawCall) : bool :=
  match c with cv_circle _ _ _ _ => true | _ => false end.
Definition is_text (c : DrawCall) : bool :=
  match c with DrawText _ _ _ _ _ _ _ => true | _ => false end.

Definition count_lines (l : list DrawCall) : nat := List.length (filter is_line l).
Definition count_circles (l : list DrawCall) : nat := List.length (filter is_circle l).

(** Two joints joined by an entry of the topology table, in either order. *)
Definition adjacent (a b : Z) : Prop :=
  In (a, b) jointLineList \/ In (b, a) jointLineList.

(** Modelled from the spec: the number of joints of a body in the model's
    keypoint layout; image_processor.cpp has no such constant. *)
Definition joint_count : Z := 17.

(** Index [i] is inside a score list and inside a coordinate list. *)
Definition in_both (sl : list float) (pl : list (float * float)) (i : Z) : Prop :=
  0 <= i < Z.of_nat (List.length sl) /\ 0 <= i < Z.of_nat (List.length pl).


Definition msg_not_initialized : Message := PRINT_E "Not initialized\n" [].
Definition msg_already_initialized : Message := PRINT_E "Already initialized\n" [].
Definition msg_not_supported (cmd : Z) : Message :=
  PRINT_E "command(%d) is not supported\n" [cmd].

(** ** Concrete sessions

    An installation in which the model under ["resource"] loads with at
    least one thread, a 640x480 frame, a 30 Hz-ish clock, and engine
    results built from a list of scores and a list of coordinates. *)

Module Demo.
Definition f32 (num den : Z) : float :=
  Float32.div (Float32.of_Z num) (Float32.of_Z den).

Definition half : float := Eval vm_compute in f32 1 2.
Definition high : float := Eval vm_compute in f32 9 10.
Definition low : float := Eval vm_compute in f32 1 10.

Definition clock (n : nat) : Z := Z.of_nat n * 33000000.

Definition frame : Mat := {| cols := 640; rows := 480; drawn := [] |}.

Definition loads (dir : string) (threads : Z) : bool :=
  String.eqb dir "resource" && (1 <=? threads).

Definition param : InputParam := {| work_dir := "resource"; num_threads := 4 |}.
Definition bad_param : InputParam := {| work_dir := "nowhere"; num_threads := 4 |}.

Definition one_body (scores : list float) (coords : list (float * float))
  : Result_ :=
  {| pose_scores := [high];
     pose_keypoint_scores := [scores];
     pose_keypoint_coords := [coords];
     time_pre_process := Float64.of_Z 1;
     time_inference := Float64.of_Z 12;
     time_post_process := Float64.of_Z 1 |}.

(** The engine of this installation, answering every frame with [r]. *)
Definition engine (r : Result_) : PoseEngineOps SpecEngine.PoseEngine :=
  SpecEngine.ops loads (fun _ => Some r).

Definition fresh : Statics SpecEngine.PoseEngine :=
  {| s_pose_engine := None; time_previous := None; clock_reads := 0 |}.

Definition no_times : Result :=
  {| r_time_pre_process := double_zero; r_time_inference := double_zero;
     r_time_post_process := double_zero |}.

(** Seventeen confident keypoints, all at normalized (0.5, 0.5). *)
Definition centred : Result_ := one_body (repeat high 17) (repeat (half, half) 17).

(** Only the nose (0) and the right eye (2) are confident. *)
Definition nose_and_eye : Result_ :=
  one_body (high :: low :: high :: repeat low 14) (repeat (half, half) 17).



(** The engine object a successful [Initialize] with [param] leaves in
    [s_pose_engine]. *)
Definition loaded : SpecEngine.PoseEngine :=
  {| SpecEngine.inference_helper_ := Some (work_dir param, num_threads param) |}.

(** The engine object left by [Initialize] followed by [Finalize]. *)
Definition released : SpecEngine.PoseEngine :=
  {| SpecEngine.inference_helper_ := None |}.

(** The statics after a successful [Initialize] from [fresh]. *)
Definition ready (r : Result_) : Statics SpecEngine.PoseEngine :=
  after (Initialize (engine_ops := engine r) fresh param).

(** The statics after [Initialize] and [Finalize], both successful. *)
Definition finalized (r : Result_) : Statics SpecEngine.PoseEngine :=
  after (Finalize (engine_ops := engine r) (ready r)).
End Demo.

(** ** Sequences of facade calls *)

Inductive FacadeCall : Type :=
| CallInitialize (input_param : InputParam)
| CallFinalize
| CallCommand (cmd : Z)
| CallProcess (mat : Mat) (result : Result).

Definition is_Initialize (c : FacadeCall) : bool :=
  match c with CallInitialize _ => true | _ => false end.

Section Calls.
Context {PoseEngine : Type} {engine_ops : PoseEngineOps PoseEngine}.
Variable steady_clock_now : nat -> Z.

(** The statics one facade call leaves behind, when the call returns. *)
Definition after_call (st : Statics PoseEngine) (c : FacadeCall)
  : Outcome (Statics PoseEngine) :=
  match c with
  | CallInitialize input_param => Returns (after (Initialize st input_param))
  | CallFinalize => Returns (after (Finalize st))
  | CallCommand cmd => Returns (after (Command st cmd))
  | CallProcess mat result =>
      (out <- Process steady_clock_now st mat result ;;
       Returns (p_after out))%outcome
  end.

(** The statics after a sequence of calls made one after the other. *)
Definition after_calls (calls : list FacadeCall) (st : Statics PoseEngine)
  : Outcome (Statics PoseEngine) :=
  for_each after_call calls st.
End Calls.

(** ** More vocabulary *)

(** The call [DrawFps] makes to [CommonHelper::DrawText], for a clock
    difference in nanoseconds and an inference time. *)
Definition fps_text (delta : Z) (time_inference : double) : DrawCall :=
  DrawText (snprintf "FPS: %.1f, Inference: %.1f [ms]"
                     [Float64.div (Float64.of_Z 1000000000) (Float64.of_Z delta);
                      time_inference])
           (cv_Point 0 0) double_half 2
           (CreateCvColor 0 0 0) (CreateCvColor 180 180 180) true.

Definition count_texts (l : list DrawCall) : nat := List.length (filter is_text l).

(** The indices of the keypoints of a body, in order: one per entry of its
    coordinate list. *)
Definition keypoint_indices (part_list : list (float * float)) : list Z :=
  map Z.of_nat (seq 0 (List.length part_list)).

(** A score that is a NaN or compares below the threshold. *)
Definition nan_or_below (s : float) : Prop :=
  s = S754_nan \/ Float32.lt s score_threshold = true.

(** Both coordinates of a keypoint have an [int32_t] truncation. *)
Definition convertible (p : float * float) : Prop :=
  (exists x, to_int32 (fst p) = Returns x) /\
  (exists y, to_int32 (snd p) = Returns y).

(** A floating value of magnitude below one: a zero, or [m * 2^e] with
    [m < 2^(-e)]. *)
Definition below_one (f : float) : Prop :=
  match f with
  | S754_zero _ => True
  | S754_finite _ m e => Z.pos m < 2 ^ (- e)
  | S754_infinity _ | S754_nan => False
  end.

(** A joint line with its two joints in increasing order. *)
Definition unordered (jointLine : Z * Z) : Z * Z :=
  (Z.min (fst jointLine) (snd jointLine), Z.max (fst jointLine) (snd jointLine)).

(** ** More concrete sessions *)

Module Scenes.
Import Demo.

(** Seventeen confident keypoints; the x coordinate of keypoint 0 is a NaN. *)
Definition nan_coord : Result_ :=
  one_body (repeat high 17) ((S754_nan, half) :: repeat (half, half) 16).

(** A NaN score followed by sixteen low scores. *)
Definition nan_scores : Result_ :=
  one_body (S754_nan :: repeat low 16) (repeat (half, half) 17).

(** A coordinate list of 2^31 entries, one more than [int32_t] can count. *)
Definition crowd : list (float * float) := repeat (half, half) (Z.to_nat (2 ^ 31)).

(** The nose (0) and the right eye (2) confident, all other scores low,
    over the 2^31 coordinates. *)
Definition crowded : Result_ :=
  one_body (high :: low :: high :: repeat low 14) crowd.

(** A clock that does not advance between readings. *)
Definition stalled (n : nat) : Z := 5.

(** A frame of zero area, which the engine refuses. *)
Definition empty_frame : Mat := {| cols := 0; rows := 0; drawn := [] |}.

(** A frame that already carries one drawing call. *)
Definition marked_frame : Mat :=
  {| cols := 640; rows := 480;
     drawn := [cv_circle (cv_Point 7 7) 5 color_circle (-1)] |}.

(** The statics of a ready session whose previous [Process] read the
    stalled clock. *)
Definition warm : Statics SpecEngine.PoseEngine :=
  {| s_pose_engine := Some loaded; time_previous := Some 5; clock_reads := 2 |}.

(** Calls made on a session, none of them [Initialize]. *)
Definition idle_calls : list FacadeCall :=
  [CallFinalize; CallCommand 3; CallProcess frame no_times; CallFinalize].

(** Calls made on a session, with attempts to initialize again. *)
Definition busy_calls : list FacadeCall :=
  [CallProcess frame no_times; CallFinalize; CallInitialize param;
   CallCommand 0; CallProcess frame no_times].
End Scenes.

(** * Properties *)

(** ** Vectors, conversions and the score test *)

Lemma index_Returns {A : Type} (v : list A) (i : Z) (a : A) :
  index v i = Returns a ->
  0 <= i < Z.of_nat (List.length v) /\ nth_error v (Z.to_nat i) = Some a.
Proof.
  unfold index.
  destruct (0 <=? i) eqn:Hlo; destruct (i <? Z.of_nat (List.length v)) eqn:Hhi;
    simpl; try discriminate.
  destruct (nth_error v (Z.to_nat i)) eqn:Hn; try discriminate.
  intros H; inversion H; subst.
  apply Z.leb_le in Hlo. apply Z.ltb_lt in Hhi. auto.
Qed.

Lemma index_in_range {A : Type} (v : list A) (i : Z) :
  0 <= i < Z.of_nat (List.length v) -> exists a, index v i = Returns a.
Proof.
  intros [Hlo Hhi]. unfold index.
  apply Z.leb_le in Hlo as Hlo'. apply Z.ltb_lt in Hhi as Hhi'.
  rewrite Hlo', Hhi'. simpl.
  destruct (nth_error v (Z.to_nat i)) eqn:Hn; eauto.
  apply nth_error_None in Hn. lia.
Qed.

Lemma index_out_of_range {A : Type} (v : list A) (i : Z) :
  ~ 0 <= i < Z.of_nat (List.length v) -> index v i = Undefined OutOfRange.
Proof.
  intros H. unfold index.
  destruct (0 <=? i) eqn:Hlo; destruct (i <? Z.of_nat (List.length v)) eqn:Hhi;
    simpl; try reflexivity.
  apply Z.leb_le in Hlo. apply Z.ltb_lt in Hhi. lia.
Qed.

Lemma to_int32_fault (f : float) (why : Fault) :
  to_int32 f = Undefined why -> why = FloatToInt.
Proof.
  unfold to_int32. destruct (truncate f) as [z|].
  - destruct ((INT32_MIN <=? z) && (z <=? INT32_MAX)); congruence.
  - congruence.
Qed.

(** A score below the threshold does not clear it. *)
Lemma lt_not_ge (a b : float) : Float32.lt a b = true -> Float32.ge a b = false.
Proof.
  unfold Float32.lt, Float32.ge, SFltb.
  destruct (SFcompare a b) as [[ | | ]|]; congruence.
Qed.

Lemma all_below_clears (score_list : list float) :
  all_below score_list -> forall i, clears score_list i = false.
Proof.
  intros H i. unfold clears.
  destruct (index score_list i) as [s|] eqn:E; [|reflexivity].
  apply lt_not_ge. eapply H; eauto.
Qed.

(** [0.2F] is the binary32 number nearest to one fifth. *)
Lemma score_threshold_value :
  score_threshold = Float32.div (Float32.of_Z 1) (Float32.of_Z 5).
Proof. reflexivity. Qed.

Lemma wrap_int32_small (z : Z) : 0 <= z < 2 ^ 31 -> wrap_int32 z = z.
Proof.
  intros H. unfold wrap_int32.
  rewrite Z.mod_small; lia.
Qed.

Lemma wrap_int32_le (z : Z) : 0 <= z -> wrap_int32 z <= z.
Proof.
  intros H. unfold wrap_int32.
  assert (Hm : 0 <= (z + 2 ^ 31) mod 2 ^ 32 <= z + 2 ^ 31).
  { split; [apply Z.mod_pos_bound; lia | apply Z.mod_le; lia]. }
  lia.
Qed.

Lemma in_upto (n i : Z) : In i (upto n) <-> 0 <= i < n.
Proof.
  unfold upto. rewrite in_map_iff. split.
  - intros [k [Hk Hin]]. apply in_seq in Hin. lia.
  - intros H. exists (Z.to_nat i). split; [lia|]. apply in_seq. lia.
Qed.

(** ** The two drawing passes *)

Lemma mat_eta (mat : Mat) :
  mat = {| cols := cols mat; rows := rows mat; drawn := drawn mat ++ [] |}.
Proof. destruct mat; simpl; rewrite app_nil_r; reflexivity. Qed.

Lemma draw_joint_line_Returns sl pl mat jl mat' :
  draw_joint_line sl pl mat jl = Returns mat' ->
  (both_clear sl jl = true /\ exists c, line_of pl jl c /\ mat' = draw mat c) \/
  (both_clear sl jl = false /\ mat' = mat).
Proof.
  unfold draw_joint_line, both_clear, clears, line_of, pixel, bind.
  destruct (index sl (fst jl)) as [s0|] eqn:E0; try discriminate.
  destruct (Float32.ge s0 score_threshold) eqn:G0.
  2:{ intros H; inversion H; right; auto. }
  destruct (index sl (snd jl)) as [s1|] eqn:E1; try discriminate.
  destruct (Float32.ge s1 score_threshold) eqn:G1.
  2:{ intros H; inversion H; right; auto. }
  destruct (index pl (fst jl)) as [p0|] eqn:P0; try discriminate.
  destruct (to_int32 (fst p0)) as [x0|] eqn:X0; try discriminate.
  destruct (to_int32 (snd p0)) as [y0|] eqn:Y0; try discriminate.
  destruct (index pl (snd jl)) as [p1|] eqn:P1; try discriminate.
  destruct (to_int32 (fst p1)) as [x1|] eqn:X1; try discriminate.
  destruct (to_int32 (snd p1)) as [y1|] eqn:Y1; try discriminate.
  intros H; inversion H; subst. left. split; [reflexivity|].
  eexists; split; [|reflexivity].
  exists (cv_Point x0 y0), (cv_Point x1 y1). auto.
Qed.

Lemma draw_keypoint_Returns sl pl mat i mat' :
  draw_keypoint sl pl mat i = Returns mat' ->
  (clears sl i = true /\ exists c, marker_of pl i c /\ mat' = draw mat c) \/
  (clears sl i = false /\ mat' = mat).
Proof.
  unfold draw_keypoint, clears, marker_of, pixel, bind.
  destruct (index sl i) as [s|] eqn:E; try discriminate.
  destruct (Float32.ge s score_threshold) eqn:G.
  2:{ intros H; inversion H; right; auto. }
  destruct (index pl i) as [p|] eqn:P; try discriminate.
  destruct (to_int32 (fst p)) as [x|] eqn:X; try discriminate.
  destruct (to_int32 (snd p)) as [y|] eqn:Y; try discriminate.
  intros H; inversion H; subst. left. split; [reflexivity|].
  eexists; split; [|reflexivity].
  exists (cv_Point x y). auto.
Qed.

(** A loop whose body either appends one call related to the current
    element or leaves the frame alone appends, in order, one call per
    element that passes the test. *)
Lemma for_each_drawn {A : Type} (body : Mat -> A -> Outcome Mat)
      (test : A -> bool) (rel : A -> DrawCall -> Prop) :
  (forall mat a mat', body mat a = Returns mat' ->
      (test a = true /\ exists c, rel a c /\ mat' = draw mat c) \/
      (test a = false /\ mat' = mat)) ->
  forall l mat mat',
    for_each body l mat = Returns mat' ->
    exists calls,
      mat' = {| cols := cols mat; rows := rows mat; drawn := drawn mat ++ calls |} /\
      Forall2 rel (filter test l) calls.
Proof.
  intros Hbody. induction l as [|a l IH]; simpl; intros mat mat' H.
  - inversion H; subst. exists []. split; [apply mat_eta | constructor].
  - unfold bind in H. destruct (body mat a) as [m1|] eqn:Eb; try discriminate.
    destruct (IH _ _ H) as [calls [Hm Hf]].
    destruct (Hbody _ _ _ Eb) as [[Ht [c [Hc Hd]]] | [Ht Hd]]; rewrite Ht; subst m1.
    + exists (c :: calls). split.
      * rewrite Hm. simpl. rewrite <- app_assoc. reflexivity.
      * constructor; assumption.
    + exists calls. split; assumption.
Qed.

Lemma joint_lines_drawn sl pl l mat mat' :
  for_each (draw_joint_line sl pl) l mat = Returns mat' ->
  exists lines,
    mat' = {| cols := cols mat; rows := rows mat; drawn := drawn mat ++ lines |} /\
    Forall2 (line_of pl) (filter (both_clear sl) l) lines.
Proof. apply for_each_drawn. apply draw_joint_line_Returns. Qed.

Lemma keypoints_drawn sl pl l mat mat' :
  for_each (draw_keypoint sl pl) l mat = Returns mat' ->
  exists markers,
    mat' = {| cols := cols mat; rows := rows mat; drawn := drawn mat ++ markers |} /\
    Forall2 (marker_of pl) (filter (clears sl) l) markers.
Proof. apply for_each_drawn. apply draw_keypoint_Returns. Qed.

Lemma draw_result_Returns pose_result mat mat' :
  draw_result pose_result mat = Returns mat' ->
  exists score_list part_list lines markers,
    index (pose_keypoint_scores pose_result) 0 = Returns score_list /\
    index (pose_keypoint_coords pose_result) 0 = Returns part_list /\
    Forall2 (line_of part_list) (filter (both_clear score_list) jointLineList) lines /\
    Forall2 (marker_of part_list)
            (filter (clears score_list)
                    (upto (wrap_int32 (Z.of_nat (List.length part_list)))))
            markers /\
    mat' = {| cols := cols mat; rows := rows mat;
              drawn := drawn mat ++ lines ++ markers |}.
Proof.
  unfold draw_result, bind.
  destruct (index (pose_keypoint_scores pose_result) 0) as [sl|] eqn:Es; try discriminate.
  destruct (index (pose_keypoint_coords pose_result) 0) as [pl|] eqn:Ep; try discriminate.
  destruct (for_each (draw_joint_line sl pl) jointLineList mat) as [m1|] eqn:E1;
    try discriminate.
  intros E2.
  destruct (joint_lines_drawn _ _ _ _ _ E1) as [lines [Hm1 Hl]].
  destruct (keypoints_drawn _ _ _ _ _ E2) as [markers [Hm2 Hk]].
  exists sl, pl, lines, markers. repeat split; try assumption.
  rewrite Hm2, Hm1. simpl. rewrite <- app_assoc. reflexivity.
Qed.

(** ** Where the indexing stays inside the vectors *)

Lemma draw_joint_line_in_bounds sl pl mat jl why :
  in_both sl pl (fst jl) -> in_both sl pl (snd jl) ->
  draw_joint_line sl pl mat jl = Undefined why -> why = FloatToInt.
Proof.
  intros [Hs0 Hp0] [Hs1 Hp1].
  destruct (index_in_range sl _ Hs0) as [s0 E0].
  destruct (index_in_range sl _ Hs1) as [s1 E1].
  destruct (index_in_range pl _ Hp0) as [p0 P0].
  destruct (index_in_range pl _ Hp1) as [p1 P1].
  unfold draw_joint_line, bind. rewrite E0, E1, P0, P1.
  destruct (Float32.ge s0 score_threshold); try discriminate.
  destruct (Float32.ge s1 score_threshold); try discriminate.
  destruct (to_int32 (fst p0)) eqn:X0;
    [|intros H; inversion H; subst; eapply to_int32_fault; eauto].
  destruct (to_int32 (snd p0)) eqn:Y0;
    [|intros H; inversion H; subst; eapply to_int32_fault; eauto].
  destruct (to_int32 (fst p1)) eqn:X1;
    [|intros H; inversion H; subst; eapply to_int32_fault; eauto].
  destruct (to_int32 (snd p1)) eqn:Y1;
    [|intros H; inversion H; subst; eapply to_int32_fault; eauto].
  discriminate.
Qed.

Lemma draw_keypoint_in_bounds sl pl mat i why :
  in_both sl pl i ->
  draw_keypoint sl pl mat i = Undefined why -> why = FloatToInt.
Proof.
  intros [Hs Hp].
  destruct (index_in_range sl _ Hs) as [s E].
  destruct (index_in_range pl _ Hp) as [p P].
  unfold draw_keypoint, bind. rewrite E, P.
  destruct (Float32.ge s score_threshold); try discriminate.
  destruct (to_int32 (fst p)) eqn:X;
    [|intros H; inversion H; subst; eapply to_int32_fault; eauto].
  destruct (to_int32 (snd p)) eqn:Y;
    [|intros H; inversion H; subst; eapply to_int32_fault; eauto].
  discriminate.
Qed.

Lemma for_each_in_bounds {A : Type} (body : Mat -> A -> Outcome Mat)
      (ok : A -> Prop) :
  (forall mat a why, ok a -> body mat a = Undefined why -> why = FloatToInt) ->
  forall l mat why,
    Forall ok l -> for_each body l mat = Undefined why -> why = FloatToInt.
Proof.
  intros Hbody. induction l as [|a l IH]; simpl; intros mat why Hok H.
  - discriminate.
  - inversion Hok; subst. unfold bind in H.
    destruct (body mat a) as [m1|w] eqn:Eb.
    + eapply IH; eauto.
    + inversion H; subst. eapply Hbody; eauto.
Qed.

Lemma jointLineList_indices :
  Forall (fun jl => 0 <= fst jl < 17 /\ 0 <= snd jl < 17) jointLineList.
Proof. unfold jointLineList. repeat constructor; simpl; lia. Qed.

Lemma draw_result_in_bounds pose_result mat score_list part_list why :
  index (pose_keypoint_scores pose_result) 0 = Returns score_list ->
  index (pose_keypoint_coords pose_result) 0 = Returns part_list ->
  17 <= Z.of_nat (List.length score_list) ->
  17 <= Z.of_nat (List.length part_list) ->
  (List.length part_list <= List.length score_list)%nat ->
  draw_result pose_result mat = Undefined why -> why = FloatToInt.
Proof.
  intros Es Ep Hs Hp Hle. unfold draw_result, bind. rewrite Es, Ep.
  destruct (for_each (draw_joint_line score_list part_list) jointLineList mat)
    as [m1|w] eqn:E1.
  - apply for_each_in_bounds with (ok := in_both score_list part_list).
    + intros; eapply draw_keypoint_in_bounds; eauto.
    + apply Forall_forall. intros i Hi. apply in_upto in Hi.
      pose proof (wrap_int32_le (Z.of_nat (List.length part_list))).
      unfold in_both. lia.
  - intros H; inversion H; subst.
    eapply for_each_in_bounds
      with (ok := fun jl => in_both score_list part_list (fst jl) /\
                            in_both score_list part_list (snd jl)); [| |exact E1].
    + intros m a w [H0 H1]. eapply draw_joint_line_in_bounds; eauto.
    + eapply Forall_impl; [|apply jointLineList_indices].
      unfold in_both. simpl. intros a Ha. lia.
Qed.

(** ** Counting what was drawn *)

Lemma filter_none {A : Type} (test : A -> bool) (l : list A) :
  (forall a, test a = false) -> filter test l = [].
Proof.
  intros H. induction l as [|a l IH]; simpl; [reflexivity|].
  rewrite H. exact IH.
Qed.

Lemma lines_counted pl l lines :
  Forall2 (line_of pl) l lines ->
  count_lines lines = List.length l /\ count_circles lines = 0%nat.
Proof.
  unfold count_lines, count_circles.
  induction 1 as [|jl c l lines [p0 [p1 [_ [_ Hc]]]] _ [IHl IHc]]; simpl; [auto|].
  subst c. simpl. rewrite IHl. auto.
Qed.

Lemma markers_counted pl l markers :
  Forall2 (marker_of pl) l markers ->
  count_lines markers = 0%nat /\ count_circles markers = List.length l.
Proof.
  unfold count_lines, count_circles.
  induction 1 as [|i c l markers [p [_ Hc]] _ [IHl IHc]]; simpl; [auto|].
  subst c. simpl. rewrite IHc. auto.
Qed.

Lemma count_lines_app l1 l2 :
  count_lines (l1 ++ l2) = (count_lines l1 + count_lines l2)%nat.
Proof. unfold count_lines. rewrite filter_app, length_app. reflexivity. Qed.

Lemma count_circles_app l1 l2 :
  count_circles (l1 ++ l2) = (count_circles l1 + count_circles l2)%nat.
Proof. unfold count_circles. rewrite filter_app, length_app. reflexivity. Qed.

(** Among the indices below [n], exactly two are equal to [a] or [b]. *)
Lemma two_among_upto (a b : Z) (m : nat) :
  0 <= a -> 0 <= b -> a <> b ->
  List.length (filter (fun i => (i =? a) || (i =? b)) (map Z.of_nat (seq 0 m))) =
  ((if (a <? Z.of_nat m)%Z then 1 else 0) + (if (b <? Z.of_nat m)%Z then 1 else 0))%nat.
Proof.
  intros Ha Hb Hab. induction m as [|m IH].
  - simpl. destruct (Z.ltb_spec a 0); destruct (Z.ltb_spec b 0); lia.
  - rewrite seq_S, map_app, filter_app, length_app, IH.
    replace (Z.of_nat (S m)) with (Z.of_nat m + 1) by lia. simpl.
    destruct (Z.eqb_spec (Z.of_nat m) a); destruct (Z.eqb_spec (Z.of_nat m) b);
      destruct (Z.ltb_spec a (Z.of_nat m)); destruct (Z.ltb_spec b (Z.of_nat m));
      destruct (Z.ltb_spec a (Z.of_nat m + 1));
      destruct (Z.ltb_spec b (Z.of_nat m + 1)); simpl; lia.
Qed.

(** The table joins two given joints at most once, never a joint with
    itself, and only joints with non-negative numbers. *)
Lemma adjacent_once (a b : Z) :
  adjacent a b ->
  a <> b /\ 0 <= a /\ 0 <= b /\
  exists jl, (jl = (a, b) \/ jl = (b, a)) /\
    filter (fun jl => ((fst jl =? a) || (fst jl =? b)) &&
                      ((snd jl =? a) || (snd jl =? b))) jointLineList = [jl].
Proof.
  unfold adjacent, jointLineList. simpl In.
  intros H.
  repeat match goal with
         | H : _ \/ _ |- _ => destruct H as [H|H]
         | H : False |- _ => destruct H
         end;
    inversion H; subst; clear H;
    (split; [discriminate|]); (split; [lia|]); (split; [lia|]);
    eexists; (split; [|reflexivity]); auto.
Qed.

(** ** The keypoints the marker loop visits *)

Lemma upto_nonpositive (m : Z) : m <= 0 -> upto m = [].
Proof.
  intros H. unfold upto. replace (Z.to_nat m) with 0%nat by lia. reflexivity.
Qed.

Lemma filter_below_all (n : nat) (m : Z) :
  Z.of_nat n <= m ->
  filter (fun i => i <? m) (map Z.of_nat (seq 0 n)) = map Z.of_nat (seq 0 n).
Proof.
  intros H. apply forallb_filter_id. apply forallb_forall.
  intros i Hi. apply in_map_iff in Hi. destruct Hi as [k [<- Hk]].
  apply in_seq in Hk. apply Z.ltb_lt. lia.
Qed.

(** The loop [for (i = 0; i < m; i++)] visits, among the indices of a list
    of [n >= m] entries, those below [m]. *)
Lemma upto_below (n : nat) (m : Z) :
  m <= Z.of_nat n ->
  upto m = filter (fun i => i <? m) (map Z.of_nat (seq 0 n)).
Proof.
  induction n as [|n IH]; intros H.
  - simpl. apply upto_nonpositive. lia.
  - rewrite seq_S, map_app, filter_app. simpl.
    destruct (Z.ltb_spec (Z.of_nat n) m) as [Hlt|Hge].
    + rewrite filter_below_all by lia.
      unfold upto. replace (Z.to_nat m) with (S n) by lia.
      rewrite seq_S, map_app. reflexivity.
    + rewrite app_nil_r. apply IH. lia.
Qed.

Lemma filter_filter_andb {A : Type} (f g : A -> bool) (l : list A) :
  filter g (filter f l) = filter (fun x => f x && g x) l.
Proof.
  induction l as [|a l IH]; simpl; [reflexivity|].
  destruct (f a); simpl; [destruct (g a)|]; rewrite IH; reflexivity.
Qed.

(** The keypoints that get a marker, read off the coordinate list: those
    below [part_num] that clear the threshold. *)
Lemma marker_loop_keypoints (sl : list float) (pl : list (float * float)) :
  filter (clears sl) (upto (wrap_int32 (Z.of_nat (List.length pl)))) =
  filter (fun i => (i <? wrap_int32 (Z.of_nat (List.length pl))) && clears sl i)
         (keypoint_indices pl).
Proof.
  unfold keypoint_indices.
  rewrite (upto_below (List.length pl)) by (apply wrap_int32_le; lia).
  apply filter_filter_andb.
Qed.

Lemma upto_length (pl : list (float * float)) :
  upto (Z.of_nat (List.length pl)) = keypoint_indices pl.
Proof. unfold upto, keypoint_indices. rewrite Nat2Z.id. reflexivity. Qed.

(** ** The facade over an arbitrary engine *)

Section Facade.
Context {PoseEngine : Type} {engine_ops : PoseEngineOps PoseEngine}.
Variable clock : nat -> Z.
Implicit Types (st : Statics PoseEngine) (mat : Mat) (result : Result).

Lemma DrawFps_draws st mat t :
  exists text,
    is_text text = true /\
    snd (DrawFps clock st mat t) = draw mat text /\
    s_pose_engine (fst (DrawFps clock st mat t)) = s_pose_engine st.
Proof.
  unfold DrawFps. destruct (time_previous st); simpl;
    eexists; repeat split; reflexivity.
Qed.

(** [Process] once the guard is passed and the engine reported success. *)
Lemma Process_engine_ok st mat result engine pose_result engine' :
  s_pose_engine st = Some engine ->
  PoseEngine_Process engine mat Result_ctor = (kRetOk, pose_result, engine') ->
  Process clock st mat result =
  bind (draw_result pose_result mat) (fun mat2 =>
    Returns {| p_ret := 0; p_printed := [];
               p_after := fst (DrawFps clock (with_engine st (Some engine')) mat2
                                       (time_inference pose_result));
               p_mat := snd (DrawFps clock (with_engine st (Some engine')) mat2
                                     (time_inference pose_result));
               p_result :=
                 {| r_time_pre_process := time_pre_process pose_result;
                    r_time_inference := time_inference pose_result;
                    r_time_post_process := time_post_process pose_result |} |}).
Proof.
  intros Hs Hp. unfold Process. rewrite Hs, Hp. simpl.
  destruct (draw_result pose_result mat) as [mat2|]; simpl; [|reflexivity].
  destruct (DrawFps clock _ _ _). reflexivity.
Qed.

(** [Process] once the guard is passed and the engine reported failure. *)
Lemma Process_engine_err st mat result engine r pose_result engine' :
  s_pose_engine st = Some engine ->
  PoseEngine_Process engine mat Result_ctor = (r, pose_result, engine') ->
  r <> kRetOk ->
  Process clock st mat result =
  Returns {| p_ret := -1; p_printed := [];
             p_after := with_engine st (Some engine');
             p_mat := mat; p_result := result |}.
Proof.
  intros Hs Hp Hr. unfold Process. rewrite Hs, Hp.
  destruct (Z.eqb_spec r kRetOk); [contradiction|reflexivity].
Qed.

(** With an engine in place [Process] prints nothing itself, whatever
    the engine answers. *)
Lemma Process_engine_silent st mat result engine out :
  s_pose_engine st = Some engine ->
  Process clock st mat result = Returns out ->
  p_printed out = [] /\
  ((p_ret out = -1 /\ p_mat out = mat /\
    fst (fst (PoseEngine_Process engine mat Result_ctor)) <> kRetOk) \/
   (p_ret out = 0 /\
    fst (fst (PoseEngine_Process engine mat Result_ctor)) = kRetOk)).
Proof.
  intros Hs. destruct (PoseEngine_Process engine mat Result_ctor)
    as [[r pose_result] engine'] eqn:Hp. simpl.
  destruct (Z.eq_dec r kRetOk) as [Hr|Hr].
  - subst r. rewrite (Process_engine_ok _ _ _ _ _ _ Hs Hp).
    destruct (draw_result pose_result mat); simpl; [|discriminate].
    intros H; inversion H; subst; simpl. auto.
  - rewrite (Process_engine_err _ _ _ _ _ _ _ Hs Hp Hr).
    intros H; inversion H; subst; simpl. auto.
Qed.

(** A [Process] that returns 0 went through the engine and both passes. *)
Lemma Process_success st mat result out :
  Process clock st mat result = Returns out -> p_ret out = 0 ->
  exists engine pose_result engine' mat2 text,
    s_pose_engine st = Some engine /\
    PoseEngine_Process engine mat Result_ctor = (kRetOk, pose_result, engine') /\
    draw_result pose_result mat = Returns mat2 /\
    is_text text = true /\
    p_mat out = draw mat2 text.
Proof.
  intros H Hret.
  destruct (s_pose_engine st) as [engine|] eqn:Hs.
  2:{ unfold Process in H. rewrite Hs in H.
      inversion H; subst; simpl in Hret; discriminate. }
  destruct (PoseEngine_Process engine mat Result_ctor)
    as [[r pose_result] engine'] eqn:Hp.
  destruct (Z.eq_dec r kRetOk) as [Hr|Hr].
  - subst r. rewrite (Process_engine_ok _ _ _ _ _ _ Hs Hp) in H.
    destruct (draw_result pose_result mat) as [mat2|] eqn:Hd; simpl in H;
      [|discriminate].
    inversion H; subst; simpl.
    destruct (DrawFps_draws (with_engine st (Some engine')) mat2
                            (time_inference pose_result)) as [text [Ht [Hm _]]].
    exists engine, pose_result, engine', mat2, text. auto.
  - rewrite (Process_engine_err _ _ _ _ _ _ _ Hs Hp Hr) in H.
    inversion H; subst; simpl in Hret; discriminate.
Qed.

Lemma Initialize_with_engine st engine p :
  s_pose_engine st = Some engine ->
  Initialize st p =
  {| ret := -1; printed := [msg_already_initialized]; after := st |}.
Proof. intros Hs. unfold Initialize. rewrite Hs. reflexivity. Qed.

(** [Initialize] returns 0 only from a session without engine, and only
    when the new engine's own [Initialize] reported success. *)
Lemma Initialize_ok st p :
  ret (Initialize st p) = 0 ->
  s_pose_engine st = None /\
  exists engine,
    PoseEngine_Initialize PoseEngine_ctor (work_dir p) (num_threads p)
      = (kRetOk, engine) /\
    after (Initialize st p) = with_engine st (Some engine).
Proof.
  unfold Initialize. destruct (s_pose_engine st) eqn:Hs; simpl; [discriminate|].
  destruct (PoseEngine_Initialize PoseEngine_ctor (work_dir p) (num_threads p))
    as [r engine].
  destruct (Z.eqb_spec r kRetOk); simpl; [|discriminate].
  subst r. intros _. split; [reflexivity|]. exists engine. auto.
Qed.

(** [Finalize] never clears [s_pose_engine]. *)
Lemma Finalize_with_engine st engine :
  s_pose_engine st = Some engine ->
  printed (Finalize st) = [] /\
  after (Finalize st) = with_engine st (Some (snd (PoseEngine_Finalize engine))).
Proof.
  intros Hs. unfold Finalize. rewrite Hs.
  destruct (PoseEngine_Finalize engine) as [r engine'].
  destruct (negb (r =? kRetOk)); simpl; auto.
Qed.

Lemma Process_uninitialized st mat result :
  s_pose_engine st = None ->
  Process clock st mat result =
  Returns {| p_ret := -1; p_printed := [msg_not_initialized]; p_after := st;
             p_mat := mat; p_result := result |}.
Proof. intros Hs. unfold Process. rewrite Hs. reflexivity. Qed.

(** ** Lifecycle *)

(** C2 (the code departs from the claim).  After an [Initialize] and a
    [Finalize] that both returned 0 the facade still holds the engine:
    every further [Initialize] prints "Already initialized" and returns
    -1, [Command] answers as for a live session, and [Process] passes
    its guard without printing "Not initialized". *)
Theorem Finalize_keeps_session st p :
  ret (Initialize st p) = 0 ->
  ret (Finalize (after (Initialize st p))) = 0 ->
  let st2 := after (Finalize (after (Initialize st p))) in
  (exists engine, s_pose_engine st2 = Some engine) /\
  (forall p', Initialize st2 p' =
              {| ret := -1; printed := [msg_already_initialized]; after := st2 |}) /\
  (forall cmd, printed (Command st2 cmd) = [msg_not_supported cmd]) /\
  (forall mat result out,
      Process clock st2 mat result = Returns out -> p_printed out = []).
Proof.
  intros Hi _. destruct (Initialize_ok _ _ Hi) as [_ [engine [_ Ha]]].
  assert (Hs1 : s_pose_engine (after (Initialize st p)) = Some engine)
    by (rewrite Ha; reflexivity).
  destruct (Finalize_with_engine _ _ Hs1) as [_ Hf].
  set (st2 := after (Finalize (after (Initialize st p)))) in *.
  assert (Hs2 : s_pose_engine st2 = Some (snd (PoseEngine_Finalize engine)))
    by (rewrite Hf; reflexivity).
  cbv zeta. split; [eauto|]. split; [|split].
  - intros p'. eapply Initialize_with_engine; eauto.
  - intros cmd. unfold Command. rewrite Hs2. destruct cmd; reflexivity.
  - intros mat result out H.
    apply (Process_engine_silent _ _ _ _ _ Hs2 H).
Qed.

(** C3 (the code departs from the claim for finalized sessions).  Before
    the first [Initialize] the guard of [Process] answers -1 with
    "Not initialized" and hands the frame back untouched.  After an
    [Initialize] and a [Finalize] that both returned 0 the guard is not
    taken: [Process] prints nothing and gives the frame to the finalized
    engine, returning -1 with the frame untouched only if that engine
    reports an error. *)
Theorem Process_guard_only_before_Initialize st p mat result :
  ret (Initialize st p) = 0 ->
  ret (Finalize (after (Initialize st p))) = 0 ->
  let st2 := after (Finalize (after (Initialize st p))) in
  Process clock st mat result =
    Returns {| p_ret := -1; p_printed := [msg_not_initialized]; p_after := st;
               p_mat := mat; p_result := result |} /\
  exists engine,
    s_pose_engine st2 = Some engine /\
    forall out,
      Process clock st2 mat result = Returns out ->
      p_printed out = [] /\
      ((p_ret out = -1 /\ p_mat out = mat /\
        fst (fst (PoseEngine_Process engine mat Result_ctor)) <> kRetOk) \/
       (p_ret out = 0 /\
        fst (fst (PoseEngine_Process engine mat Result_ctor)) = kRetOk)).
Proof.
  intros Hi _. destruct (Initialize_ok _ _ Hi) as [Hs0 [engine [_ Ha]]].
  assert (Hs1 : s_pose_engine (after (Initialize st p)) = Some engine)
    by (rewrite Ha; reflexivity).
  destruct (Finalize_with_engine _ _ Hs1) as [_ Hf].
  cbv zeta. split.
  - apply Process_uninitialized; assumption.
  - exists (snd (PoseEngine_Finalize engine)).
    assert (Hs2 : s_pose_engine (after (Finalize (after (Initialize st p))))
                  = Some (snd (PoseEngine_Finalize engine)))
      by (rewrite Hf; reflexivity).
    split; [exact Hs2|].
    intros out H. apply (Process_engine_silent _ _ _ _ _ Hs2 H).
Qed.

(** C6.  A second [Initialize] with no [Finalize] in between prints
    "Already initialized", returns -1 and leaves the statics exactly as
    the first call left them: the engine created and initialized by the
    first call is still the one in [s_pose_engine], and [Process]
    afterwards is [Process] on the first session. *)
Theorem Initialize_twice st p1 p2 :
  ret (Initialize st p1) = 0 ->
  let st1 := after (Initialize st p1) in
  Initialize st1 p2 =
    {| ret := -1; printed := [msg_already_initialized]; after := st1 |} /\
  (exists engine,
      PoseEngine_Initialize PoseEngine_ctor (work_dir p1) (num_threads p1)
        = (kRetOk, engine) /\
      s_pose_engine (after (Initialize st1 p2)) = Some engine) /\
  (forall mat result,
      Process clock (after (Initialize st1 p2)) mat result =
      Process clock st1 mat result).
Proof.
  intros Hi. destruct (Initialize_ok _ _ Hi) as [_ [engine [He Ha]]].
  assert (Hs1 : s_pose_engine (after (Initialize st p1)) = Some engine)
    by (rewrite Ha; reflexivity).
  cbv zeta. rewrite (Initialize_with_engine _ _ p2 Hs1). simpl.
  split; [reflexivity|]. split; [eauto|]. reflexivity.
Qed.

(** C10.  When the engine's own [Initialize] reports an error, the
    facade's [Initialize] returns -1 but keeps the engine it created:
    every later [Initialize] prints "Already initialized" and returns -1,
    and neither [Finalize] nor [Process] prints "Not initialized"; both
    go on to the engine that never became ready. *)
Theorem Initialize_failure_keeps_engine st p r engine :
  s_pose_engine st = None ->
  PoseEngine_Initialize PoseEngine_ctor (work_dir p) (num_threads p)
    = (r, engine) ->
  r <> kRetOk ->
  let st1 := after (Initialize st p) in
  ret (Initialize st p) = -1 /\
  s_pose_engine st1 = Some engine /\
  (forall p', Initialize st1 p' =
              {| ret := -1; printed := [msg_already_initialized]; after := st1 |}) /\
  (printed (Finalize st1) = [] /\
   after (Finalize st1)
     = with_engine st1 (Some (snd (PoseEngine_Finalize engine)))) /\
  (forall mat result out,
      Process clock st1 mat result = Returns out ->
      ~ In msg_not_initialized (p_printed out)).
Proof.
  intros Hs He Hr.
  assert (Hi : Initialize st p =
               {| ret := -1; printed := []; after := with_engine st (Some engine) |}).
  { unfold Initialize. rewrite Hs, He.
    destruct (Z.eqb_spec r kRetOk); [contradiction|reflexivity]. }
  cbv zeta. rewrite Hi. simpl.
  assert (Hs1 : s_pose_engine (with_engine st (Some engine)) = Some engine)
    by reflexivity.
  split; [reflexivity|]. split; [reflexivity|]. split; [|split].
  - intros p'. eapply Initialize_with_engine; eauto.
  - apply (Finalize_with_engine _ _ Hs1).
  - intros mat result out H.
    destruct (Process_engine_silent _ _ _ _ _ Hs1 H) as [Hp _].
    rewrite Hp. simpl. auto.
Qed.

(** C7 (as amended).  [Command] never returns 0 and changes nothing: for
    every command code it returns -1; with an engine in place (so in
    particular in a ready session) it prints that the command is not
    supported, and with no engine it prints "Not initialized". *)
Theorem Command_rejects_every_code st cmd :
  Command st cmd =
    {| ret := -1;
       printed := [match s_pose_engine st with
                   | Some _ => msg_not_supported cmd
                   | None => msg_not_initialized
                   end];
       after := st |} /\
  ret (Command st cmd) <> 0.
Proof.
  unfold Command. destruct (s_pose_engine st); [destruct cmd|]; simpl;
    split; (reflexivity || discriminate).
Qed.

(** ** The overlay *)

(** C4 (as amended).  In a [Process] that returns 0 the calls added to the
    frame are the lines, then the markers, then the FPS text.  The lines
    are, in table order, one per entry of [jointLineList] whose two
    endpoints both score at least [score_threshold], and no other.  The
    markers are, in index order, one per keypoint that is below
    [part_num], the number of coordinates cast to [int32_t], and whose own
    score is at least [score_threshold], and no other; for a body of fewer
    than 2^31 coordinates these are all the keypoints whose own score is
    at least [score_threshold].  When every score is below the threshold
    there is no line and no marker. *)
Theorem Process_threshold_gates_drawing st mat result out :
  Process clock st mat result = Returns out ->
  p_ret out = 0 ->
  exists engine pose_result engine' score_list part_list lines markers text,
    s_pose_engine st = Some engine /\
    PoseEngine_Process engine mat Result_ctor = (kRetOk, pose_result, engine') /\
    index (pose_keypoint_scores pose_result) 0 = Returns score_list /\
    index (pose_keypoint_coords pose_result) 0 = Returns part_list /\
    drawn (p_mat out) = drawn mat ++ lines ++ markers ++ [text] /\
    is_text text = true /\
    Forall2 (line_of part_list)
            (filter (both_clear score_list) jointLineList) lines /\
    Forall2 (marker_of part_list)
            (filter (fun i => (i <? wrap_int32 (Z.of_nat (List.length part_list)))
                              && clears score_list i)
                    (keypoint_indices part_list)) markers /\
    (Z.of_nat (List.length part_list) < 2 ^ 31 ->
     Forall2 (marker_of part_list)
             (filter (clears score_list) (keypoint_indices part_list)) markers) /\
    (all_below score_list -> lines = [] /\ markers = []).
Proof.
  intros H Hret.
  destruct (Process_success _ _ _ _ H Hret)
    as [engine [pose_result [engine' [mat2 [text [Hs [Hp [Hd [Ht Hm]]]]]]]]].
  destruct (draw_result_Returns _ _ _ Hd)
    as [score_list [part_list [lines [markers [Es [Ep [Hl [Hk Hm2]]]]]]]].
  exists engine, pose_result, engine', score_list, part_list, lines, markers, text.
  repeat (split; [assumption|]).
  split; [|split; [assumption|split; [assumption|split; [|split]]]].
  - rewrite Hm, Hm2. simpl. rewrite <- !app_assoc. reflexivity.
  - rewrite <- marker_loop_keypoints. exact Hk.
  - intros Hlen. rewrite wrap_int32_small in Hk by lia.
    rewrite upto_length in Hk. exact Hk.
  - intros Hb. pose proof (all_below_clears _ Hb) as Hc.
    rewrite filter_none in Hl
      by (intros jl; unfold both_clear; rewrite Hc; reflexivity).
    rewrite filter_none in Hk by exact Hc.
    inversion Hl; inversion Hk; auto.
Qed.

(** C5 (as amended).  When the engine answers with a body of fewer than
    2^31 coordinates in which two joints joined by the table score at
    least [score_threshold] and every other score is below it, a
    [Process] that returns adds exactly one line and exactly two markers
    to the frame. *)
Theorem Process_two_adjacent_joints
        st mat result out engine pose_result engine' score_list part_list a b :
  s_pose_engine st = Some engine ->
  PoseEngine_Process engine mat Result_ctor = (kRetOk, pose_result, engine') ->
  index (pose_keypoint_scores pose_result) 0 = Returns score_list ->
  index (pose_keypoint_coords pose_result) 0 = Returns part_list ->
  Z.of_nat (List.length part_list) < 2 ^ 31 ->
  adjacent a b ->
  clears score_list a = true ->
  clears score_list b = true ->
  (forall i s, i <> a -> i <> b -> index score_list i = Returns s ->
               Float32.lt s score_threshold = true) ->
  Process clock st mat result = Returns out ->
  p_ret out = 0 /\
  exists calls,
    drawn (p_mat out) = drawn mat ++ calls /\
    count_lines calls = 1%nat /\
    count_circles calls = 2%nat.
Proof.
  intros Hs Hp Es Ep Hlen Hadj Ha Hb Hrest H.
  rewrite (Process_engine_ok _ _ _ _ _ _ Hs Hp) in H.
  destruct (draw_result pose_result mat) as [mat2|] eqn:Hd; simpl in H;
    [|discriminate].
  inversion H; subst out; clear H. simpl. split; [reflexivity|].
  destruct (DrawFps_draws (with_engine st (Some engine')) mat2
                          (time_inference pose_result)) as [text [Ht [Hm _]]].
  destruct (draw_result_Returns _ _ _ Hd)
    as [sl [pl [lines [markers [Es' [Ep' [Hl [Hk Hm2]]]]]]]].
  rewrite Es in Es'. rewrite Ep in Ep'.
  inversion Es'; inversion Ep'; subst sl pl; clear Es' Ep'.
  rewrite wrap_int32_small in Hk by lia.
  (* which indices clear the threshold *)
  assert (Hc : forall i, clears score_list i = (i =? a) || (i =? b)).
  { intros i. destruct (Z.eqb_spec i a) as [->|Hia]; [rewrite Ha; reflexivity|].
    destruct (Z.eqb_spec i b) as [->|Hib]; [rewrite Hb; reflexivity|].
    simpl. unfold clears.
    destruct (index score_list i) as [s|] eqn:Ei; [|reflexivity].
    apply lt_not_ge. eapply Hrest; eassumption. }
  destruct (adjacent_once _ _ Hadj) as [Hab [Ha0 [Hb0 [jl [Hjl Hf]]]]].
  rewrite (filter_ext (both_clear score_list)
             (fun jl => ((fst jl =? a) || (fst jl =? b)) &&
                        ((snd jl =? a) || (snd jl =? b)))) in Hl
    by (intros x; unfold both_clear; rewrite !Hc; reflexivity).
  rewrite Hf in Hl.
  (* both joints have coordinates *)
  assert (Hin : 0 <= a < Z.of_nat (List.length part_list) /\
                0 <= b < Z.of_nat (List.length part_list)).
  { inversion Hl as [|x c l' ls' [p0 [p1 [Hp0 [Hp1 _]]]] _]; subst.
    unfold pixel, bind in Hp0, Hp1.
    destruct (index part_list (fst jl)) as [q0|] eqn:E0; [|discriminate].
    destruct (index part_list (snd jl)) as [q1|] eqn:E1; [|discriminate].
    apply index_Returns in E0. apply index_Returns in E1.
    destruct Hjl; subst jl; cbn [fst snd] in E0, E1; lia. }
  rewrite (filter_ext (clears score_list) (fun i => (i =? a) || (i =? b)) Hc) in Hk.
  pose proof (lines_counted _ _ _ Hl) as [Hll Hlc].
  pose proof (markers_counted _ _ _ Hk) as [Hml Hmc].
  unfold upto in Hmc. rewrite (two_among_upto a b _ Ha0 Hb0 Hab) in Hmc.
  rewrite Z2Nat.id in Hmc by lia.
  destruct (Z.ltb_spec a (Z.of_nat (List.length part_list))); [|lia].
  destruct (Z.ltb_spec b (Z.of_nat (List.length part_list))); [|lia].
  exists (lines ++ markers ++ [text]). split.
  - rewrite Hm, Hm2. simpl. rewrite <- !app_assoc. reflexivity.
  - rewrite !count_lines_app, !count_circles_app, Hll, Hlc, Hml, Hmc.
    unfold count_lines, count_circles. destruct text; try discriminate.
    simpl. auto.
Qed.


(** What the two passes add for seventeen confident keypoints that all
    sit at normalized (0.5, 0.5): every coordinate is truncated as it
    is, whatever the frame. *)
Lemma draw_result_centred pose_result mat :
  pose_keypoint_scores pose_result = [repeat Demo.high 17] ->
  pose_keypoint_coords pose_result = [repeat (Demo.half, Demo.half) 17] ->
  draw_result pose_result mat =
  Returns {| cols := cols mat; rows := rows mat;
             drawn := drawn mat
                      ++ repeat (cv_line (cv_Point 0 0) (cv_Point 0 0) color_line 2) 16
                      ++ repeat (cv_circle (cv_Point 0 0) 5 color_circle (-1)) 17 |}.
Proof.
  intros Hs Hc. unfold draw_result. rewrite Hs, Hc.
  destruct mat as [w h calls]. cbv -[app].
  rewrite <- !app_assoc. reflexivity.
Qed.

(** C1 (the code departs from the claim).  The frame size plays no part
    in where a keypoint is drawn: for a frame of any width and height,
    when the engine answers with seventeen confident keypoints at
    normalized (0.5, 0.5), [Process] returns 0 and draws every line from
    pixel (0, 0) to pixel (0, 0) and every marker at pixel (0, 0). *)
Theorem Process_draws_unscaled st mat result engine pose_result engine' :
  s_pose_engine st = Some engine ->
  PoseEngine_Process engine mat Result_ctor = (kRetOk, pose_result, engine') ->
  pose_keypoint_scores pose_result = [repeat Demo.high 17] ->
  pose_keypoint_coords pose_result = [repeat (Demo.half, Demo.half) 17] ->
  exists out text,
    Process clock st mat result = Returns out /\
    p_ret out = 0 /\
    is_text text = true /\
    drawn (p_mat out) =
      drawn mat
      ++ repeat (cv_line (cv_Point 0 0) (cv_Point 0 0) color_line 2) 16
      ++ repeat (cv_circle (cv_Point 0 0) 5 color_circle (-1)) 17
      ++ [text].
Proof.
  intros Hs Hp Hsc Hco.
  rewrite (Process_engine_ok _ _ _ _ _ _ Hs Hp).
  rewrite (draw_result_centred _ _ Hsc Hco). simpl bind.
  match goal with
  | |- context [DrawFps clock ?s ?m ?t] =>
      destruct (DrawFps_draws s m t) as [text [Ht [Hm _]]]
  end.
  eexists. exists text. split; [reflexivity|]. simpl.
  split; [reflexivity|]. split; [assumption|].
  rewrite Hm. simpl. rewrite <- !app_assoc. reflexivity.
Qed.
End Facade.

(** ** The topology table *)

(** C8.  [jointLineList] has exactly sixteen entries, and both joint
    numbers of every entry are at least 0 and below [joint_count], the
    seventeen joints of a body. *)
Theorem jointLineList_valid :
  List.length jointLineList = 16%nat /\
  Forall (fun jointLine => 0 <= fst jointLine < joint_count /\
                           0 <= snd jointLine < joint_count) jointLineList.
Proof.
  split; [reflexivity|].
  unfold jointLineList, joint_count. repeat constructor; simpl; lia.
Qed.

(** * The properties on concrete sessions *)

Module Sessions.
Import Demo.

Lemma ready_engine r : s_pose_engine (ready r) = Some loaded.
Proof. reflexivity. Qed.

Lemma finalized_engine r : s_pose_engine (finalized r) = Some released.
Proof. reflexivity. Qed.

(** In [nose_and_eye] every score but those of joints 0 and 2 is below
    the threshold. *)
Lemma nose_and_eye_rest i s :
  i <> 0 -> i <> 2 ->
  index (high :: low :: high :: repeat low 14) i = Returns s ->
  Float32.lt s score_threshold = true.
Proof.
  intros H0 H2 H. apply index_Returns in H. destruct H as [Hi Hn].
  simpl List.length in Hi.
  assert (Hk : exists k, i = Z.of_nat k /\ (k < 17)%nat)
    by (exists (Z.to_nat i); lia).
  destruct Hk as [k [-> Hk]]. rewrite Nat2Z.id in Hn.
  do 17 (destruct k as [|k];
         [simpl in Hn; try lia; inversion Hn; subst; reflexivity|]).
  lia.
Qed.

(** The frame is 640 x 480 and the keypoints sit at normalized
    (0.5, 0.5): a marker is drawn at pixel (0, 0), none at (320, 240). *)
Lemma Process_draws_unscaled_640x480 :
  exists out,
    Process (engine_ops := engine centred) clock (ready centred) frame no_times
      = Returns out /\
    p_ret out = 0 /\
    cols (p_mat out) = 640 /\ rows (p_mat out) = 480 /\
    In (cv_circle (cv_Point 0 0) 5 color_circle (-1)) (drawn (p_mat out)) /\
    ~ In (cv_circle (cv_Point 320 240) 5 color_circle (-1)) (drawn (p_mat out)).
Proof.
  destruct (Process_draws_unscaled (engine_ops := engine centred) clock
              (ready centred) frame no_times loaded centred loaded
              eq_refl eq_refl eq_refl eq_refl)
    as [out [text [H [Hr [Ht Hd]]]]].
  exists out. split; [exact H|]. split; [exact Hr|].
  assert (Hsize : cols (p_mat out) = 640 /\ rows (p_mat out) = 480).
  { vm_compute in H. inversion H. split; reflexivity. }
  split; [apply Hsize|]. split; [apply Hsize|].
  rewrite Hd. split.
  - apply in_or_app; right. apply in_or_app; right.
    apply in_or_app; left. simpl. auto.
  - intros Hin.
    apply in_app_or in Hin. destruct Hin as [Hin|Hin]; [destruct Hin|].
    apply in_app_or in Hin. destruct Hin as [Hin|Hin];
      [apply repeat_spec in Hin; discriminate|].
    apply in_app_or in Hin. destruct Hin as [Hin|Hin];
      [apply repeat_spec in Hin; discriminate|].
    destruct Hin as [Hin|[]]. subst text. discriminate.
Defined.

Lemma Finalize_keeps_session_demo :
  ret (Initialize (engine_ops := engine centred) fresh param) = 0 /\
  ret (Finalize (engine_ops := engine centred) (ready centred)) = 0 /\
  (forall p', Initialize (engine_ops := engine centred) (finalized centred) p' =
              {| ret := -1; printed := [msg_already_initialized];
                 after := finalized centred |}).
Proof.
  split; [reflexivity|]. split; [reflexivity|].
  apply (Finalize_keeps_session (engine_ops := engine centred) clock fresh param
           eq_refl eq_refl).
Defined.

Lemma Process_after_Finalize_demo :
  Process (engine_ops := engine centred) clock fresh frame no_times =
    Returns {| p_ret := -1; p_printed := [msg_not_initialized]; p_after := fresh;
               p_mat := frame; p_result := no_times |} /\
  exists e,
    s_pose_engine (finalized centred) = Some e /\
    forall out,
      Process (engine_ops := engine centred) clock (finalized centred) frame no_times
        = Returns out ->
      p_printed out = [] /\
      ((p_ret out = -1 /\ p_mat out = frame /\
        fst (fst (PoseEngine_Process (PoseEngineOps := Demo.engine centred)
                    e frame Result_ctor)) <> kRetOk) \/
       (p_ret out = 0 /\
        fst (fst (PoseEngine_Process (PoseEngineOps := Demo.engine centred)
                    e frame Result_ctor)) = kRetOk)).
Proof.
  apply (Process_guard_only_before_Initialize (engine_ops := Demo.engine centred)
           clock fresh param frame no_times eq_refl eq_refl).
Defined.

(** A successful [Process] on the body with two confident joints. *)
Lemma Process_nose_and_eye_returns :
  exists out,
    Process (engine_ops := engine nose_and_eye) clock (ready nose_and_eye)
            frame no_times = Returns out /\
    p_ret out = 0.
Proof. eexists. split; vm_compute; reflexivity. Qed.

Lemma Process_threshold_gates_drawing_demo :
  exists out,
    Process (engine_ops := engine nose_and_eye) clock (ready nose_and_eye)
            frame no_times = Returns out /\
    p_ret out = 0 /\
    exists e pose_result e' score_list part_list lines markers text,
      s_pose_engine (ready nose_and_eye) = Some e /\
      PoseEngine_Process (PoseEngineOps := Demo.engine nose_and_eye)
                         e frame Result_ctor = (kRetOk, pose_result, e') /\
      index (pose_keypoint_scores pose_result) 0 = Returns score_list /\
      index (pose_keypoint_coords pose_result) 0 = Returns part_list /\
      drawn (p_mat out) = drawn frame ++ lines ++ markers ++ [text] /\
      is_text text = true /\
      Forall2 (line_of part_list)
              (filter (both_clear score_list) jointLineList) lines /\
      Forall2 (marker_of part_list)
              (filter (fun i => (i <? wrap_int32 (Z.of_nat (List.length part_list)))
                                && clears score_list i)
                      (keypoint_indices part_list)) markers /\
      (Z.of_nat (List.length part_list) < 2 ^ 31 ->
       Forall2 (marker_of part_list)
               (filter (clears score_list) (keypoint_indices part_list)) markers) /\
      (all_below score_list -> lines = [] /\ markers = []).
Proof.
  destruct Process_nose_and_eye_returns as [out [H Hr]].
  exists out. split; [exact H|]. split; [exact Hr|].
  apply (Process_threshold_gates_drawing (engine_ops := Demo.engine nose_and_eye)
           clock (ready nose_and_eye) frame no_times out H Hr).
Defined.

Lemma Process_two_adjacent_joints_demo :
  adjacent 0 2 /\
  exists out,
    Process (engine_ops := engine nose_and_eye) clock (ready nose_and_eye)
            frame no_times = Returns out /\
    p_ret out = 0 /\
    exists calls,
      drawn (p_mat out) = drawn frame ++ calls /\
      count_lines calls = 1%nat /\
      count_circles calls = 2%nat.
Proof.
  assert (Hadj : adjacent 0 2) by (left; simpl; auto).
  split; [exact Hadj|].
  destruct Process_nose_and_eye_returns as [out [H _]].
  exists out. split; [exact H|].
  apply (Process_two_adjacent_joints (engine_ops := Demo.engine nose_and_eye)
           clock (ready nose_and_eye) frame no_times out loaded nose_and_eye loaded
           (high :: low :: high :: repeat low 14) (repeat (half, half) 17) 0 2
           eq_refl eq_refl eq_refl eq_refl eq_refl Hadj eq_refl eq_refl
           nose_and_eye_rest H).
Defined.

Lemma Initialize_twice_demo :
  ret (Initialize (engine_ops := engine centred) fresh param) = 0 /\
  Initialize (engine_ops := engine centred) (ready centred) param =
    {| ret := -1; printed := [msg_already_initialized]; after := ready centred |} /\
  (exists e,
      PoseEngine_Initialize (PoseEngineOps := Demo.engine centred)
        SpecEngine.ctor (work_dir param) (num_threads param) = (kRetOk, e) /\
      s_pose_engine (after (Initialize (engine_ops := Demo.engine centred)
                                       (ready centred) param)) = Some e) /\
  (forall mat result,
      Process (engine_ops := Demo.engine centred) clock
              (after (Initialize (engine_ops := Demo.engine centred)
                                 (ready centred) param)) mat result =
      Process (engine_ops := Demo.engine centred) clock (ready centred) mat result).
Proof.
  split; [reflexivity|].
  apply (Initialize_twice (engine_ops := Demo.engine centred) clock
           fresh param param eq_refl).
Defined.


Lemma Initialize_failure_keeps_engine_demo :
  ret (Initialize (engine_ops := engine centred) fresh bad_param) = -1 /\
  s_pose_engine (after (Initialize (engine_ops := engine centred) fresh bad_param))
    = Some SpecEngine.ctor /\
  (forall p',
      Initialize (engine_ops := engine centred)
                 (after (Initialize (engine_ops := engine centred) fresh bad_param)) p'
      = {| ret := -1; printed := [msg_already_initialized];
           after := after (Initialize (engine_ops := engine centred)
                                      fresh bad_param) |}).
Proof.
  pose proof (Initialize_failure_keeps_engine (engine_ops := Demo.engine centred)
                clock fresh bad_param kRetErr SpecEngine.ctor eq_refl eq_refl)
    as H.
  assert (Hr : kRetErr <> kRetOk) by (vm_compute; discriminate).
  destruct (H Hr) as [H1 [H2 [H3 _]]].
  split; [exact H1|]. split; [exact H2|]. exact H3.
Defined.

(** ** Inputs on which a claim does not hold as stated *)

(** C7, counterexample.  Before any [Initialize], [Command 0] does not
    report an unsupported command; it reports "Not initialized". *)
Lemma Command_before_Initialize :
  Command fresh 0 =
    {| ret := -1; printed := [msg_not_initialized]; after := fresh |} /\
  printed (Command fresh 0)
    <> [msg_not_supported 0].
Proof. split; [reflexivity|]. vm_compute. discriminate. Qed.

End Sessions.


(** * Further properties of the facade *)

Section Lifecycle.
Context {PoseEngine : Type} {engine_ops : PoseEngineOps PoseEngine}.
Variable clock : nat -> Z.
Implicit Types (st : Statics PoseEngine) (mat : Mat) (result : Result).

(** Every way in which [Process] returns. *)
Lemma Process_Returns_cases st mat result out :
  Process clock st mat result = Returns out ->
  (s_pose_engine st = None /\
   out = {| p_ret := -1; p_printed := [msg_not_initialized]; p_after := st;
            p_mat := mat; p_result := result |}) \/
  (exists engine r pose_result engine',
      s_pose_engine st = Some engine /\
      PoseEngine_Process engine mat Result_ctor = (r, pose_result, engine') /\
      ((r <> kRetOk /\
        out = {| p_ret := -1; p_printed := [];
                 p_after := with_engine st (Some engine');
                 p_mat := mat; p_result := result |}) \/
       (r = kRetOk /\
        exists mat2,
          draw_result pose_result mat = Returns mat2 /\
          out = {| p_ret := 0; p_printed := [];
                   p_after := fst (DrawFps clock (with_engine st (Some engine'))
                                           mat2 (time_inference pose_result));
                   p_mat := snd (DrawFps clock (with_engine st (Some engine'))
                                         mat2 (time_inference pose_result));
                   p_result :=
                     {| r_time_pre_process := time_pre_process pose_result;
                        r_time_inference := time_inference pose_result;
                        r_time_post_process := time_post_process pose_result |}
                |}))).
Proof.
  intros H. destruct (s_pose_engine st) as [engine|] eqn:Hs.
  - right.
    destruct (PoseEngine_Process engine mat Result_ctor)
      as [[r pose_result] engine'] eqn:Hp.
    exists engine, r, pose_result, engine'. split; [reflexivity|].
    split; [exact Hp|].
    destruct (Z.eq_dec r kRetOk) as [Hr|Hr].
    + right. subst r. split; [reflexivity|].
      rewrite (Process_engine_ok _ _ _ _ _ _ _ Hs Hp) in H.
      destruct (draw_result pose_result mat) as [mat2|] eqn:Hd; simpl in H;
        [|discriminate].
      exists mat2. split; [reflexivity|]. congruence.
    + left. split; [assumption|].
      rewrite (Process_engine_err _ _ _ _ _ _ _ _ Hs Hp Hr) in H. congruence.
  - left. split; [reflexivity|].
    rewrite (Process_uninitialized _ _ _ _ Hs) in H. congruence.
Qed.

(** What [DrawFps] computes, with the two cases of the static joined. *)
Lemma DrawFps_unfold st mat t :
  DrawFps clock st mat t =
  match time_previous st with
  | Some previous =>
      ({| s_pose_engine := s_pose_engine st;
          time_previous := Some (clock (clock_reads st));
          clock_reads := S (clock_reads st) |},
       draw mat (fps_text (clock (clock_reads st) - previous) t))
  | None =>
      ({| s_pose_engine := s_pose_engine st;
          time_previous := Some (clock (S (clock_reads st)));
          clock_reads := S (S (clock_reads st)) |},
       draw mat (fps_text (clock (S (clock_reads st)) - clock (clock_reads st)) t))
  end.
Proof. unfold DrawFps. destruct (time_previous st); reflexivity. Qed.

Lemma after_call_keeps_engine st c st' :
  s_pose_engine st <> None ->
  after_call clock st c = Returns st' ->
  s_pose_engine st' <> None.
Proof.
  intros Hs. destruct (s_pose_engine st) as [engine|] eqn:He; [clear Hs|congruence].
  destruct c as [p| |cmd|mat result]; simpl.
  - rewrite (Initialize_with_engine _ _ p He). intros H; inversion H; subst.
    simpl. congruence.
  - destruct (Finalize_with_engine _ _ He) as [_ Ha].
    intros H; inversion H; subst. rewrite Ha. simpl. discriminate.
  - unfold Command. rewrite He.
    intros H; inversion H; subst. destruct cmd; simpl; congruence.
  - unfold bind.
    destruct (Process clock st mat result) as [out|] eqn:Hp; [|discriminate].
    intros H; inversion H; subst.
    destruct (Process_Returns_cases _ _ _ _ Hp)
      as [[Hn _]|[e [r [pr [e' [_ [_ [[_ Ho]|[_ [mat2 [_ Ho]]]]]]]]]]].
    + congruence.
    + subst out. simpl. discriminate.
    + subst out. simpl.
      destruct (DrawFps_draws clock (with_engine st (Some e')) mat2
                              (time_inference pr)) as [_ [_ [_ Hk]]].
      rewrite Hk. simpl. discriminate.
Qed.

Lemma after_calls_keep_engine calls :
  forall st st',
    s_pose_engine st <> None ->
    after_calls clock calls st = Returns st' ->
    s_pose_engine st' <> None.
Proof.
  unfold after_calls.
  induction calls as [|c calls IH]; simpl; intros st st' Hs H.
  - inversion H; subst. assumption.
  - unfold bind in H.
    destruct (after_call clock st c) as [st1|] eqn:Hc; [|discriminate].
    eapply IH; [|exact H]. eapply after_call_keeps_engine; eauto.
Qed.

Lemma Initialize_leaves_engine st p :
  s_pose_engine (after (Initialize st p)) <> None.
Proof.
  unfold Initialize. destruct (s_pose_engine st) eqn:Hs; simpl; [congruence|].
  destruct (PoseEngine_Initialize PoseEngine_ctor (work_dir p) (num_threads p))
    as [r engine].
  destruct (negb (r =? kRetOk)); simpl; discriminate.
Qed.

Lemma Finalize_uninitialized st :
  s_pose_engine st = None ->
  Finalize st = {| ret := -1; printed := [msg_not_initialized]; after := st |}.
Proof. intros Hs. unfold Finalize. rewrite Hs. reflexivity. Qed.

Lemma Command_uninitialized st cmd :
  s_pose_engine st = None ->
  Command st cmd = {| ret := -1; printed := [msg_not_initialized]; after := st |}.
Proof. intros Hs. unfold Command. rewrite Hs. reflexivity. Qed.

(** X1.  No facade call ever releases the engine: from statics that hold
    an engine, after any sequence of [Initialize], [Finalize], [Command]
    and [Process] calls that return, [s_pose_engine] still holds one. *)
Theorem engine_is_never_released calls st st' :
  s_pose_engine st <> None ->
  after_calls clock calls st = Returns st' ->
  s_pose_engine st' <> None.
Proof. intros Hs H. exact (after_calls_keep_engine calls st st' Hs H). Qed.

(** X2.  [Initialize] can return 0 at most once: after one [Initialize],
    whatever it returned, and any sequence of further calls, every
    [Initialize] prints "Already initialized", returns -1 and changes
    nothing. *)
Theorem Initialize_succeeds_at_most_once st p calls st' p' :
  after_calls clock calls (after (Initialize st p)) = Returns st' ->
  Initialize st' p' =
    {| ret := -1; printed := [msg_already_initialized]; after := st' |}.
Proof.
  intros H.
  pose proof (after_calls_keep_engine calls _ _ (Initialize_leaves_engine st p) H)
    as Hs.
  destruct (s_pose_engine st') as [engine|] eqn:He; [|congruence].
  exact (Initialize_with_engine st' engine p' He).
Qed.

(** X3.  Without an engine the facade is inert: [Finalize] prints
    "Not initialized", returns -1 and changes nothing, and any sequence of
    [Finalize], [Command] and [Process] calls leaves the statics exactly
    as they were; only [Initialize] leaves that state. *)
Theorem uninitialized_session_is_inert st :
  s_pose_engine st = None ->
  Finalize st = {| ret := -1; printed := [msg_not_initialized]; after := st |} /\
  forall calls,
    forallb (fun c => negb (is_Initialize c)) calls = true ->
    after_calls clock calls st = Returns st.
Proof.
  intros Hs. split; [apply Finalize_uninitialized; assumption|].
  unfold after_calls. induction calls as [|c calls IH]; simpl; intros Hc.
  - reflexivity.
  - apply andb_true_iff in Hc. destruct Hc as [Hc Hrest].
    destruct c as [p| |cmd|mat result]; simpl in Hc; try discriminate; simpl.
    + rewrite (Finalize_uninitialized _ Hs). simpl. auto.
    + rewrite (Command_uninitialized _ cmd Hs). simpl. auto.
    + rewrite (Process_uninitialized clock _ mat result Hs). simpl. auto.
Qed.

(** X4.  Every facade call that returns gives 0 or -1; a call that gives 0
    prints nothing, and a call that gives -1 prints at most one message.
    [Command] always gives -1 with exactly one message. *)
Theorem facade_returns_and_prints st :
  (forall p, (ret (Initialize st p) = 0 /\ printed (Initialize st p) = []) \/
             (ret (Initialize st p) = -1 /\
              (List.length (printed (Initialize st p)) <= 1)%nat)) /\
  ((ret (Finalize st) = 0 /\ printed (Finalize st) = []) \/
   (ret (Finalize st) = -1 /\ (List.length (printed (Finalize st)) <= 1)%nat)) /\
  (forall cmd, ret (Command st cmd) = -1 /\
               List.length (printed (Command st cmd)) = 1%nat) /\
  (forall mat result out,
      Process clock st mat result = Returns out ->
      (p_ret out = 0 /\ p_printed out = []) \/
      (p_ret out = -1 /\ (List.length (p_printed out) <= 1)%nat)).
Proof.
  split; [|split; [|split]].
  - intros p. unfold Initialize. destruct (s_pose_engine st); simpl; [auto|].
    destruct (PoseEngine_Initialize PoseEngine_ctor (work_dir p) (num_threads p))
      as [r engine].
    destruct (negb (r =? kRetOk)); simpl; auto.
  - unfold Finalize. destruct (s_pose_engine st) as [engine|]; simpl; [|auto].
    destruct (PoseEngine_Finalize engine) as [r engine'].
    destruct (negb (r =? kRetOk)); simpl; auto.
  - intros cmd. unfold Command.
    destruct (s_pose_engine st); [destruct cmd|]; simpl; auto.
  - intros mat result out H.
    destruct (Process_Returns_cases _ _ _ _ H)
      as [[_ Ho]|[e [r [pr [e' [_ [_ [[_ Ho]|[_ [mat2 [_ Ho]]]]]]]]]]];
      subst out; simpl; auto.
Qed.

(** X5.  A [Process] that does not return 0 returns -1 and has touched
    nothing but the engine: the frame, the result record, [time_previous]
    and the number of clock readings are as before the call. *)
Theorem Process_failure_touches_nothing st mat result out :
  Process clock st mat result = Returns out ->
  p_ret out <> 0 ->
  p_ret out = -1 /\
  p_mat out = mat /\
  p_result out = result /\
  time_previous (p_after out) = time_previous st /\
  clock_reads (p_after out) = clock_reads st.
Proof.
  intros H Hret.
  destruct (Process_Returns_cases _ _ _ _ H)
    as [[_ Ho]|[e [r [pr [e' [_ [_ [[_ Ho]|[_ [mat2 [_ Ho]]]]]]]]]]];
    subst out; simpl in *; auto.
  contradiction.
Qed.

(** X6.  A [Process] that returns 0 reports the three times of the engine's
    result, unchanged and whatever the result record held before, and
    keeps the engine as [PoseEngine::Process] left it. *)
Theorem Process_reports_engine_times st mat result out :
  Process clock st mat result = Returns out ->
  p_ret out = 0 ->
  exists engine pose_result engine',
    s_pose_engine st = Some engine /\
    PoseEngine_Process engine mat Result_ctor = (kRetOk, pose_result, engine') /\
    s_pose_engine (p_after out) = Some engine' /\
    p_result out =
      {| r_time_pre_process := time_pre_process pose_result;
         r_time_inference := time_inference pose_result;
         r_time_post_process := time_post_process pose_result |}.
Proof.
  intros H Hret.
  destruct (Process_Returns_cases _ _ _ _ H)
    as [[_ Ho]|[e [r [pr [e' [Hs [Hp [[_ Ho]|[Hr [mat2 [_ Ho]]]]]]]]]]];
    subst out; simpl in *; try discriminate.
  subst r. exists e, pr, e'. repeat (split; [assumption|]).
  destruct (DrawFps_draws clock (with_engine st (Some e')) mat2 (time_inference pr))
    as [_ [_ [_ Hk]]].
  rewrite Hk. split; reflexivity.
Qed.

(** X7.  Whatever [Process] returns, the frame keeps its width and height
    and every drawing call it already carried, in order; new calls are
    only added after them. *)
Theorem Process_keeps_size_and_earlier_drawing st mat result out :
  Process clock st mat result = Returns out ->
  cols (p_mat out) = cols mat /\
  rows (p_mat out) = rows mat /\
  exists added, drawn (p_mat out) = drawn mat ++ added.
Proof.
  intros H.
  destruct (Process_Returns_cases _ _ _ _ H)
    as [[_ Ho]|[e [r [pr [e' [_ [_ [[_ Ho]|[_ [mat2 [Hd Ho]]]]]]]]]]];
    subst out; simpl.
  - repeat split. exists []. rewrite app_nil_r. reflexivity.
  - repeat split. exists []. rewrite app_nil_r. reflexivity.
  - destruct (DrawFps_draws clock (with_engine st (Some e')) mat2 (time_inference pr))
      as [text [_ [Hm _]]].
    destruct (draw_result_Returns _ _ _ Hd)
      as [sl [pl [lines [markers [_ [_ [_ [_ Hm2]]]]]]]].
    rewrite Hm, Hm2. simpl. repeat split.
    exists (lines ++ markers ++ [text]). rewrite <- !app_assoc. reflexivity.
Qed.
End Lifecycle.

(** ** More on the two drawing passes *)

Lemma Forall2_In_l {A B : Type} (R : A -> B -> Prop) (l : list A) (l' : list B) x :
  Forall2 R l l' -> In x l -> exists y, In y l' /\ R x y.
Proof.
  induction 1 as [|a b l l' Hab _ IH]; simpl; intros Hin; [contradiction|].
  destruct Hin as [->|Hin]; [eauto|].
  destruct (IH Hin) as [y [Hy Hr]]. eauto.
Qed.

Lemma Forall2_In_r {A B : Type} (R : A -> B -> Prop) (l : list A) (l' : list B) y :
  Forall2 R l l' -> In y l' -> exists x, In x l /\ R x y.
Proof.
  induction 1 as [|a b l l' Hab _ IH]; simpl; intros Hin; [contradiction|].
  destruct Hin as [->|Hin]; [eauto|].
  destruct (IH Hin) as [x [Hx Hr]]. eauto.
Qed.

Lemma lines_no_text pl l lines :
  Forall2 (line_of pl) l lines -> count_texts lines = 0%nat.
Proof.
  unfold count_texts.
  induction 1 as [|jl c l lines [p0 [p1 [_ [_ Hc]]]] _ IH]; simpl; [auto|].
  subst c. simpl. exact IH.
Qed.

Lemma markers_no_text pl l markers :
  Forall2 (marker_of pl) l markers -> count_texts markers = 0%nat.
Proof.
  unfold count_texts.
  induction 1 as [|i c l markers [p [_ Hc]] _ IH]; simpl; [auto|].
  subst c. simpl. exact IH.
Qed.

Lemma length_upto (n : Z) : List.length (upto n) = Z.to_nat n.
Proof. unfold upto. rewrite length_map, length_seq. reflexivity. Qed.

(** A keypoint that has a pixel is inside the coordinate list and both of
    its coordinates were converted. *)
Lemma pixel_Returns pl i q :
  pixel pl i = Returns q ->
  exists p, index pl i = Returns p /\
            to_int32 (fst p) = Returns (pt_x q) /\
            to_int32 (snd p) = Returns (pt_y q).
Proof.
  unfold pixel, bind.
  destruct (index pl i) as [p|] eqn:Ei; [|discriminate].
  destruct (to_int32 (fst p)) as [x|] eqn:Ex; [|discriminate].
  destruct (to_int32 (snd p)) as [y|] eqn:Ey; [|discriminate].
  intros H; inversion H; subst. simpl. eauto.
Qed.

Lemma nan_or_below_clears sl :
  Forall nan_or_below sl -> forall i, clears sl i = false.
Proof.
  intros H i. unfold clears.
  destruct (index sl i) as [s|] eqn:Ei; [|reflexivity].
  apply index_Returns in Ei. destruct Ei as [_ Hn].
  apply nth_error_In in Hn.
  rewrite Forall_forall in H. destruct (H _ Hn) as [->|Hlt].
  - reflexivity.
  - apply lt_not_ge. assumption.
Qed.

Lemma to_int32_below_one (f : float) : below_one f -> to_int32 f = Returns 0.
Proof.
  destruct f as [s|s| |s m e]; simpl; try contradiction.
  - intros _. reflexivity.
  - intros H. unfold to_int32, truncate.
    assert (He : e < 0).
    { destruct (Z.ltb_spec e 0) as [|Hge]; [assumption|].
      assert (2 ^ (- e) <= 1).
      { destruct (Z.eq_dec e 0) as [->|]; [simpl; lia|].
        rewrite Z.pow_neg_r by lia. lia. }
      lia. }
    rewrite Z.shiftl_div_pow2 by lia.
    rewrite Z.div_small by lia.
    destruct s; reflexivity.
Qed.

Lemma draw_joint_line_defined sl pl mat jl :
  in_both sl pl (fst jl) -> in_both sl pl (snd jl) ->
  Forall convertible pl ->
  exists mat', draw_joint_line sl pl mat jl = Returns mat'.
Proof.
  intros [Hs0 Hp0] [Hs1 Hp1] Hconv.
  destruct (index_in_range sl _ Hs0) as [s0 E0].
  destruct (index_in_range sl _ Hs1) as [s1 E1].
  destruct (index_in_range pl _ Hp0) as [p0 P0].
  destruct (index_in_range pl _ Hp1) as [p1 P1].
  rewrite Forall_forall in Hconv.
  destruct (Hconv p0) as [[x0 X0] [y0 Y0]];
    [eapply nth_error_In; apply (index_Returns _ _ _ P0)|].
  destruct (Hconv p1) as [[x1 X1] [y1 Y1]];
    [eapply nth_error_In; apply (index_Returns _ _ _ P1)|].
  unfold draw_joint_line, bind. rewrite E0, E1, P0, P1, X0, Y0, X1, Y1.
  destruct (Float32.ge s0 score_threshold); [|eauto].
  destruct (Float32.ge s1 score_threshold); eauto.
Qed.

Lemma draw_keypoint_defined sl pl mat i :
  in_both sl pl i -> Forall convertible pl ->
  exists mat', draw_keypoint sl pl mat i = Returns mat'.
Proof.
  intros [Hs Hp] Hconv.
  destruct (index_in_range sl _ Hs) as [s E].
  destruct (index_in_range pl _ Hp) as [p P].
  rewrite Forall_forall in Hconv.
  destruct (Hconv p) as [[x X] [y Y]];
    [eapply nth_error_In; apply (index_Returns _ _ _ P)|].
  unfold draw_keypoint, bind. rewrite E, P, X, Y.
  destruct (Float32.ge s score_threshold); eauto.
Qed.

Lemma for_each_defined {A : Type} (body : Mat -> A -> Outcome Mat) (ok : A -> Prop) :
  (forall mat a, ok a -> exists mat', body mat a = Returns mat') ->
  forall l mat, Forall ok l -> exists mat', for_each body l mat = Returns mat'.
Proof.
  intros Hbody. induction l as [|a l IH]; simpl; intros mat Hok.
  - eauto.
  - inversion Hok; subst. destruct (Hbody mat a) as [m1 E1]; [assumption|].
    rewrite E1. simpl. apply IH. assumption.
Qed.

Lemma draw_result_defined pose_result mat score_list part_list :
  index (pose_keypoint_scores pose_result) 0 = Returns score_list ->
  index (pose_keypoint_coords pose_result) 0 = Returns part_list ->
  17 <= Z.of_nat (List.length score_list) ->
  17 <= Z.of_nat (List.length part_list) ->
  (List.length part_list <= List.length score_list)%nat ->
  Forall convertible part_list ->
  exists mat', draw_result pose_result mat = Returns mat'.
Proof.
  intros Es Ep Hs Hp Hle Hconv. unfold draw_result, bind. rewrite Es, Ep.
  destruct (for_each_defined (draw_joint_line score_list part_list)
              (fun jl => in_both score_list part_list (fst jl) /\
                         in_both score_list part_list (snd jl)))
    with (l := jointLineList) (mat := mat) as [m1 E1].
  - intros m a [H0 H1]. apply draw_joint_line_defined; assumption.
  - eapply Forall_impl; [|apply jointLineList_indices].
    unfold in_both. simpl. intros a Ha. lia.
  - rewrite E1.
    apply for_each_defined with (ok := in_both score_list part_list).
    + intros m a Ha. apply draw_keypoint_defined; assumption.
    + apply Forall_forall. intros i Hi. apply in_upto in Hi.
      pose proof (wrap_int32_le (Z.of_nat (List.length part_list))).
      unfold in_both. lia.
Qed.

Section Overlay.
Context {PoseEngine : Type} {engine_ops : PoseEngineOps PoseEngine}.
Variable clock : nat -> Z.
Implicit Types (st : Statics PoseEngine) (mat : Mat) (result : Result).

(** A [Process] that returns after the engine reported success, taken
    apart into the lines, the markers and the text it added. *)
Lemma Process_engine_ok_Returns st mat result engine pose_result engine' out :
  s_pose_engine st = Some engine ->
  PoseEngine_Process engine mat Result_ctor = (kRetOk, pose_result, engine') ->
  Process clock st mat result = Returns out ->
  exists score_list part_list lines markers text,
    index (pose_keypoint_scores pose_result) 0 = Returns score_list /\
    index (pose_keypoint_coords pose_result) 0 = Returns part_list /\
    Forall2 (line_of part_list) (filter (both_clear score_list) jointLineList) lines /\
    Forall2 (marker_of part_list)
            (filter (clears score_list)
                    (upto (wrap_int32 (Z.of_nat (List.length part_list)))))
            markers /\
    is_text text = true /\
    drawn (p_mat out) = drawn mat ++ lines ++ markers ++ [text].
Proof.
  intros Hs Hp H. rewrite (Process_engine_ok _ _ _ _ _ _ _ Hs Hp) in H.
  destruct (draw_result pose_result mat) as [mat2|] eqn:Hd; unfold bind in H;
    [|discriminate H].
  injection H as Ho.
  destruct (DrawFps_draws clock (with_engine st (Some engine')) mat2
                          (time_inference pose_result)) as [text [Ht [Hm _]]].
  destruct (draw_result_Returns _ _ _ Hd)
    as [sl [pl [lines [markers [Es [Ep [Hl [Hk Hm2]]]]]]]].
  exists sl, pl, lines, markers, text. repeat (split; [assumption|]).
  rewrite <- Ho. cbn [p_mat]. rewrite Hm, Hm2. cbn [draw drawn].
  rewrite <- !app_assoc. reflexivity.
Qed.

(** X8.  A [Process] that returns 0 adds at most sixteen lines, at most as
    many markers as body 0 has coordinates, and exactly one text, which is
    the last call on the frame. *)
Theorem Process_drawing_is_bounded st mat result out :
  Process clock st mat result = Returns out ->
  p_ret out = 0 ->
  exists engine pose_result engine' part_list added text,
    s_pose_engine st = Some engine /\
    PoseEngine_Process engine mat Result_ctor = (kRetOk, pose_result, engine') /\
    index (pose_keypoint_coords pose_result) 0 = Returns part_list /\
    drawn (p_mat out) = drawn mat ++ added ++ [text] /\
    is_text text = true /\
    count_texts added = 0%nat /\
    (count_lines added <= 16)%nat /\
    (count_circles added <= List.length part_list)%nat.
Proof.
  intros H Hret.
  destruct (Process_success _ _ _ _ _ H Hret)
    as [engine [pose_result [engine' [_ [_ [Hs [Hp _]]]]]]].
  destruct (Process_engine_ok_Returns _ _ _ _ _ _ _ Hs Hp H)
    as [sl [pl [lines [markers [text [_ [Ep [Hl [Hk [Ht Hd]]]]]]]]]].
  exists engine, pose_result, engine', pl, (lines ++ markers), text.
  repeat (split; [assumption|]).
  split; [rewrite Hd, <- !app_assoc; reflexivity|]. split; [assumption|].
  pose proof (lines_counted _ _ _ Hl) as [Hll Hlc].
  pose proof (markers_counted _ _ _ Hk) as [Hml Hmc].
  split; [|split].
  - unfold count_texts in *. rewrite filter_app, length_app.
    pose proof (lines_no_text _ _ _ Hl) as H1.
    pose proof (markers_no_text _ _ _ Hk) as H2.
    unfold count_texts in H1, H2. rewrite H1, H2. reflexivity.
  - rewrite count_lines_app, Hll, Hml.
    pose proof (filter_length_le (both_clear sl) jointLineList) as Hf.
    change (List.length jointLineList) with 16%nat in Hf. lia.
  - rewrite count_circles_app, Hlc, Hmc.
    pose proof (filter_length_le (clears sl)
                  (upto (wrap_int32 (Z.of_nat (List.length pl))))) as Hf.
    rewrite length_upto in Hf.
    pose proof (wrap_int32_le (Z.of_nat (List.length pl))). lia.
Qed.

(** X9.  In a [Process] that returns after the engine reported success,
    every line comes with its two markers: if a line from pixel [p0] to
    pixel [p1] was added, so were a marker at [p0] and a marker at [p1]
    (body 0 having fewer than 2^31 coordinates). *)
Theorem Process_lines_come_with_markers
        st mat result out engine pose_result engine' part_list :
  s_pose_engine st = Some engine ->
  PoseEngine_Process engine mat Result_ctor = (kRetOk, pose_result, engine') ->
  index (pose_keypoint_coords pose_result) 0 = Returns part_list ->
  Z.of_nat (List.length part_list) < 2 ^ 31 ->
  Process clock st mat result = Returns out ->
  exists added,
    drawn (p_mat out) = drawn mat ++ added /\
    forall p0 p1 color thickness,
      In (cv_line p0 p1 color thickness) added ->
      In (cv_circle p0 5 color_circle (-1)) added /\
      In (cv_circle p1 5 color_circle (-1)) added.
Proof.
  intros Hs Hp Ep Hlen H.
  destruct (Process_engine_ok_Returns _ _ _ _ _ _ _ Hs Hp H)
    as [sl [pl [lines [markers [text [_ [Ep' [Hl [Hk [Ht Hd]]]]]]]]]].
  rewrite Ep in Ep'. inversion Ep'; subst pl; clear Ep'.
  rewrite wrap_int32_small in Hk by lia.
  exists (lines ++ markers ++ [text]). split; [assumption|].
  intros p0 p1 color thickness Hin.
  assert (Hline : In (cv_line p0 p1 color thickness) lines).
  { apply in_app_or in Hin. destruct Hin as [Hin|Hin]; [assumption|].
    apply in_app_or in Hin. destruct Hin as [Hin|Hin].
    - destruct (Forall2_In_r _ _ _ _ Hk Hin) as [i [_ [p [_ Hc]]]]. discriminate.
    - destruct Hin as [Hin|[]]. subst text. discriminate. }
  destruct (Forall2_In_r _ _ _ _ Hl Hline) as [jl [Hjl [q0 [q1 [Hq0 [Hq1 Hc]]]]]].
  inversion Hc; subst q0 q1 color thickness; clear Hc.
  apply filter_In in Hjl. destruct Hjl as [_ Hboth].
  unfold both_clear in Hboth. apply andb_true_iff in Hboth.
  destruct Hboth as [Hc0 Hc1].
  assert (Hmark : forall i p, pixel part_list i = Returns p ->
                              clears sl i = true ->
                              In (cv_circle p 5 color_circle (-1)) markers).
  { intros i p Hpix Hci.
    destruct (pixel_Returns _ _ _ Hpix) as [c [Ei _]].
    apply index_Returns in Ei. destruct Ei as [Hi _].
    assert (Hfi : In i (filter (clears sl) (upto (Z.of_nat (List.length part_list)))))
      by (apply filter_In; split; [apply in_upto; assumption|assumption]).
    destruct (Forall2_In_l _ _ _ _ Hk Hfi) as [m [Hm [p' [Hp' Hmc]]]].
    rewrite Hpix in Hp'. inversion Hp'; subst p'. subst m. assumption. }
  split; apply in_or_app; right; apply in_or_app; left; eauto.
Qed.

(** X10.  When every score of body 0 is a NaN or below the threshold, a
    [Process] that returns adds nothing to the frame but the text. *)
Theorem Process_draws_nothing_for_NaN_or_low_scores
        st mat result out engine pose_result engine' score_list :
  s_pose_engine st = Some engine ->
  PoseEngine_Process engine mat Result_ctor = (kRetOk, pose_result, engine') ->
  index (pose_keypoint_scores pose_result) 0 = Returns score_list ->
  Forall nan_or_below score_list ->
  Process clock st mat result = Returns out ->
  exists text, is_text text = true /\ drawn (p_mat out) = drawn mat ++ [text].
Proof.
  intros Hs Hp Es Hlow H.
  destruct (Process_engine_ok_Returns _ _ _ _ _ _ _ Hs Hp H)
    as [sl [pl [lines [markers [text [Es' [_ [Hl [Hk [Ht Hd]]]]]]]]]].
  rewrite Es in Es'. inversion Es'; subst sl; clear Es'.
  pose proof (nan_or_below_clears _ Hlow) as Hc.
  rewrite filter_none in Hl
    by (intros jl; unfold both_clear; rewrite Hc; reflexivity).
  rewrite filter_none in Hk by exact Hc.
  inversion Hl; inversion Hk; subst.
  exists text. split; assumption.
Qed.

(** X11.  [Process] returns 0 whenever the engine reports success with a
    body 0 of at least [joint_count] scores and coordinates, at least as
    many scores as coordinates, and coordinates that all have an
    [int32_t] truncation. *)
Theorem Process_returns_0 st mat result engine pose_result engine'
        score_list part_list :
  s_pose_engine st = Some engine ->
  PoseEngine_Process engine mat Result_ctor = (kRetOk, pose_result, engine') ->
  index (pose_keypoint_scores pose_result) 0 = Returns score_list ->
  index (pose_keypoint_coords pose_result) 0 = Returns part_list ->
  joint_count <= Z.of_nat (List.length score_list) ->
  joint_count <= Z.of_nat (List.length part_list) ->
  (List.length part_list <= List.length score_list)%nat ->
  Forall convertible part_list ->
  exists out, Process clock st mat result = Returns out /\ p_ret out = 0.
Proof.
  intros Hs Hp Es Ep Hsl Hpl Hle Hconv.
  rewrite (Process_engine_ok _ _ _ _ _ _ _ Hs Hp).
  destruct (draw_result_defined _ mat _ _ Es Ep Hsl Hpl Hle Hconv) as [mat2 Hd].
  rewrite Hd. simpl. eexists. split; reflexivity.
Qed.

(** X12.  Coordinates are converted without a range check: with all
    indices in bounds, if some keypoint of body 0 that is below
    [part_num], the number of coordinates cast to [int32_t], clears the
    threshold and one of its coordinates has no [int32_t] truncation (a
    NaN, an infinity, a value beyond the [int32_t] range), [Process]
    leaves defined behaviour at a float-to-int conversion. *)
Theorem Process_undefined_conversion st mat result engine pose_result engine'
        score_list part_list i p :
  s_pose_engine st = Some engine ->
  PoseEngine_Process engine mat Result_ctor = (kRetOk, pose_result, engine') ->
  index (pose_keypoint_scores pose_result) 0 = Returns score_list ->
  index (pose_keypoint_coords pose_result) 0 = Returns part_list ->
  joint_count <= Z.of_nat (List.length score_list) ->
  joint_count <= Z.of_nat (List.length part_list) ->
  (List.length part_list <= List.length score_list)%nat ->
  i < wrap_int32 (Z.of_nat (List.length part_list)) ->
  index part_list i = Returns p ->
  clears score_list i = true ->
  ~ convertible p ->
  Process clock st mat result = Undefined FloatToInt.
Proof.
  intros Hs Hp Es Ep Hsl Hpl Hle Hreach Ei Hc Hnot.
  rewrite (Process_engine_ok _ _ _ _ _ _ _ Hs Hp).
  destruct (draw_result pose_result mat) as [mat2|why] eqn:Hd; simpl.
  - exfalso. apply Hnot.
    destruct (draw_result_Returns _ _ _ Hd)
      as [sl [pl [lines [markers [Es' [Ep' [_ [Hk _]]]]]]]].
    rewrite Es in Es'. rewrite Ep in Ep'.
    inversion Es'; inversion Ep'; subst sl pl; clear Es' Ep'.
    assert (Hfi : In i (filter (clears score_list)
                               (upto (wrap_int32 (Z.of_nat (List.length part_list)))))).
    { apply filter_In. split; [|assumption]. apply in_upto.
      pose proof (index_Returns _ _ _ Ei) as [Hi _]. lia. }
    destruct (Forall2_In_l _ _ _ _ Hk Hfi) as [m [_ [q [Hq _]]]].
    destruct (pixel_Returns _ _ _ Hq) as [p' [Ei' [Hx Hy]]].
    rewrite Ei in Ei'. inversion Ei'; subst p'.
    split; eauto.
  - rewrite (draw_result_in_bounds _ _ _ _ _ Es Ep Hsl Hpl Hle Hd). reflexivity.
Qed.

(** X13.  Coordinates are truncated as they are: when both coordinates of
    every keypoint of body 0 are below one in magnitude, every line a
    returning [Process] adds runs from pixel (0, 0) to pixel (0, 0) and
    every marker sits at pixel (0, 0), whatever the size of the frame. *)
Theorem Process_draws_small_coordinates_at_origin
        st mat result out engine pose_result engine' part_list :
  s_pose_engine st = Some engine ->
  PoseEngine_Process engine mat Result_ctor = (kRetOk, pose_result, engine') ->
  index (pose_keypoint_coords pose_result) 0 = Returns part_list ->
  Forall (fun p => below_one (fst p) /\ below_one (snd p)) part_list ->
  Process clock st mat result = Returns out ->
  exists added,
    drawn (p_mat out) = drawn mat ++ added /\
    Forall (fun c => c = cv_line (cv_Point 0 0) (cv_Point 0 0) color_line 2 \/
                     c = cv_circle (cv_Point 0 0) 5 color_circle (-1) \/
                     is_text c = true) added.
Proof.
  intros Hs Hp Ep Hsmall H.
  destruct (Process_engine_ok_Returns _ _ _ _ _ _ _ Hs Hp H)
    as [sl [pl [lines [markers [text [_ [Ep' [Hl [Hk [Ht Hd]]]]]]]]]].
  rewrite Ep in Ep'. inversion Ep'; subst pl; clear Ep'.
  assert (Horigin : forall i q, pixel part_list i = Returns q -> q = cv_Point 0 0).
  { intros i q Hq. destruct (pixel_Returns _ _ _ Hq) as [p [Ei [Hx Hy]]].
    apply index_Returns in Ei. destruct Ei as [_ Hn]. apply nth_error_In in Hn.
    rewrite Forall_forall in Hsmall. destruct (Hsmall _ Hn) as [Bx By].
    rewrite (to_int32_below_one _ Bx) in Hx.
    rewrite (to_int32_below_one _ By) in Hy.
    destruct q as [x y]. cbn [pt_x pt_y] in Hx, Hy. congruence. }
  exists (lines ++ markers ++ [text]). split; [assumption|].
  apply Forall_forall. intros c Hin.
  apply in_app_or in Hin. destruct Hin as [Hin|Hin].
  - destruct (Forall2_In_r _ _ _ _ Hl Hin) as [jl [_ [q0 [q1 [Hq0 [Hq1 Hc]]]]]].
    rewrite (Horigin _ _ Hq0), (Horigin _ _ Hq1) in Hc. auto.
  - apply in_app_or in Hin. destruct Hin as [Hin|Hin].
    + destruct (Forall2_In_r _ _ _ _ Hk Hin) as [i [_ [q [Hq Hc]]]].
      rewrite (Horigin _ _ Hq) in Hc. auto.
    + destruct Hin as [Hin|[]]. subst c. auto.
Qed.

(** ** The FPS timer *)

(** The timer side of a [Process] that returns 0, for both states of the
    static [time_previous]. *)
Lemma Process_success_timer st mat result out :
  Process clock st mat result = Returns out ->
  p_ret out = 0 ->
  exists mat2,
    match time_previous st with
    | Some previous =>
        time_previous (p_after out) = Some (clock (clock_reads st)) /\
        clock_reads (p_after out) = S (clock_reads st) /\
        p_mat out = draw mat2 (fps_text (clock (clock_reads st) - previous)
                                        (r_time_inference (p_result out)))
    | None =>
        time_previous (p_after out) = Some (clock (S (clock_reads st))) /\
        clock_reads (p_after out) = S (S (clock_reads st)) /\
        p_mat out = draw mat2 (fps_text (clock (S (clock_reads st))
                                         - clock (clock_reads st))
                                        (r_time_inference (p_result out)))
    end.
Proof.
  intros H Hret.
  destruct (Process_Returns_cases _ _ _ _ _ H)
    as [[_ Ho]|[e [r [pr [e' [_ [_ [[_ Ho]|[_ [mat2 [_ Ho]]]]]]]]]]];
    subst out; cbn [p_ret] in Hret; try discriminate Hret.
  exists mat2. cbn [p_after p_mat p_result r_time_inference].
  rewrite DrawFps_unfold. cbn [with_engine time_previous clock_reads].
  destruct (time_previous st); cbn [fst snd time_previous clock_reads]; auto.
Qed.

(** X14.  The FPS shown is taken from the clock, one reading per call: in
    two [Process] calls in a row that both return 0, the second draws the
    text for the difference between the clock reading of the second call
    and the clock reading of the first, together with the inference time
    it returns, and stores its reading for the next call. *)
Theorem Process_fps_between_calls st mat1 result1 out1 mat2 result2 out2 :
  Process clock st mat1 result1 = Returns out1 ->
  p_ret out1 = 0 ->
  Process clock (p_after out1) mat2 result2 = Returns out2 ->
  p_ret out2 = 0 ->
  exists n earlier,
    clock_reads (p_after out1) = S n /\
    time_previous (p_after out1) = Some (clock n) /\
    clock_reads (p_after out2) = S (S n) /\
    time_previous (p_after out2) = Some (clock (S n)) /\
    drawn (p_mat out2) =
      earlier ++ [fps_text (clock (S n) - clock n)
                           (r_time_inference (p_result out2))].
Proof.
  intros H1 Hr1 H2 Hr2.
  destruct (Process_success_timer _ _ _ _ H1 Hr1) as [m1 T1].
  destruct (Process_success_timer _ _ _ _ H2 Hr2) as [m2 T2].
  assert (Hn : exists n, clock_reads (p_after out1) = S n /\
                         time_previous (p_after out1) = Some (clock n)).
  { destruct (time_previous st); destruct T1 as [Hp [Hc _]];
      rewrite Hp, Hc; eauto. }
  destruct Hn as [n [Hc Hp]]. rewrite Hp, Hc in T2.
  destruct T2 as [Hp2 [Hc2 Hm2]].
  exists n, (drawn m2). repeat (split; [assumption|]).
  rewrite Hm2. reflexivity.
Qed.

(** X15.  The first [Process] that returns 0 reads the clock twice, once
    to initialise [time_previous] and once for the current time, and shows
    the FPS for the difference between these two readings; every later
    one reads the clock once. *)
Theorem Process_first_call_reads_clock_twice st mat result out :
  Process clock st mat result = Returns out ->
  p_ret out = 0 ->
  (time_previous st = None ->
   clock_reads (p_after out) = S (S (clock_reads st)) /\
   exists earlier,
     drawn (p_mat out) =
       earlier ++ [fps_text (clock (S (clock_reads st)) - clock (clock_reads st))
                            (r_time_inference (p_result out))]) /\
  (time_previous st <> None ->
   clock_reads (p_after out) = S (clock_reads st)).
Proof.
  intros H Hret.
  destruct (Process_success_timer _ _ _ _ H Hret) as [m T].
  destruct (time_previous st) as [t|]; destruct T as [_ [Hc Hm]]; split.
  - discriminate.
  - intros _. assumption.
  - intros _. split; [assumption|]. exists (drawn m). rewrite Hm. reflexivity.
  - congruence.
Qed.

(** X16.  A clock that has not advanced since the previous call is no
    error: the division by the zero difference gives +infinity, which is
    the FPS value handed to the text, and [Process] returns 0 as usual. *)
Theorem Process_fps_of_zero_difference st mat result out previous :
  time_previous st = Some previous ->
  clock (clock_reads st) = previous ->
  Process clock st mat result = Returns out ->
  p_ret out = 0 ->
  exists earlier,
    drawn (p_mat out) =
      earlier ++ [DrawText (snprintf "FPS: %.1f, Inference: %.1f [ms]"
                                     [S754_infinity false;
                                      r_time_inference (p_result out)])
                           (cv_Point 0 0) double_half 2
                           (CreateCvColor 0 0 0) (CreateCvColor 180 180 180) true].
Proof.
  intros Hp Hc H Hret.
  destruct (Process_success_timer _ _ _ _ H Hret) as [m T].
  rewrite Hp in T. destruct T as [_ [_ Hm]].
  exists (drawn m). rewrite Hm, Hc, Z.sub_diag. reflexivity.
Qed.
End Overlay.

(** ** More on the topology table *)

(** X17.  No entry of [jointLineList] joins a joint with itself, no two
    entries join the same two joints (in either order), and every joint
    from 0 to [joint_count - 1] is an end of at least one entry. *)
Theorem jointLineList_structure :
  Forall (fun jointLine => fst jointLine <> snd jointLine) jointLineList /\
  NoDup (map unordered jointLineList) /\
  forall j, 0 <= j < joint_count ->
            exists jointLine,
              In jointLine jointLineList /\
              (fst jointLine = j \/ snd jointLine = j).
Proof.
  split; [|split].
  - unfold jointLineList. repeat constructor; simpl; discriminate.
  - let l := eval vm_compute in (map unordered jointLineList) in
    change (NoDup l).
    repeat (constructor;
            [simpl; intros Hin;
             repeat (destruct Hin as [Hin|Hin]; [discriminate|]); exact Hin|]).
    constructor.
  - unfold joint_count. intros j Hj.
    assert (Hcases : j = 0 \/ j = 1 \/ j = 2 \/ j = 3 \/ j = 4 \/ j = 5 \/ j = 6 \/
                     j = 7 \/ j = 8 \/ j = 9 \/ j = 10 \/ j = 11 \/ j = 12 \/
                     j = 13 \/ j = 14 \/ j = 15 \/ j = 16) by lia.
    unfold jointLineList.
    repeat (destruct Hcases as [->|Hcases]);
      [ exists (0, 2) | exists (1, 3) | exists (0, 2) | exists (1, 3)
      | exists (2, 4) | exists (6, 5) | exists (6, 5) | exists (5, 7)
      | exists (6, 8) | exists (7, 9) | exists (8, 10) | exists (5, 11)
      | exists (11, 12) | exists (11, 13) | exists (12, 14) | exists (13, 15)
      | subst j; exists (14, 16) ];
      (split; [simpl; repeat (first [left; reflexivity | right])
              |simpl; first [left; reflexivity | right; reflexivity]]).
Qed.


(** * The further properties on concrete sessions *)

Module MoreSessions.
Import Demo Scenes.

Lemma Process_centred_returns :
  exists out,
    Process (engine_ops := engine centred) clock (ready centred) frame no_times
      = Returns out /\
    p_ret out = 0.
Proof. eexists. split; vm_compute; reflexivity. Qed.

Lemma centred_convertible : Forall convertible (repeat (half, half) 17).
Proof. repeat constructor; eexists; reflexivity. Qed.

Lemma centred_small :
  Forall (fun p => below_one (fst p) /\ below_one (snd p)) (repeat (half, half) 17).
Proof. repeat constructor. Qed.

Lemma nan_scores_low : Forall nan_or_below (S754_nan :: repeat low 16).
Proof.
  constructor; [left; reflexivity|].
  repeat (constructor; [right; reflexivity|]). constructor.
Qed.

Lemma engine_is_never_released_demo :
  exists st',
    after_calls (engine_ops := engine centred) clock busy_calls (ready centred)
      = Returns st' /\
    s_pose_engine st' <> None.
Proof.
  eexists. split; [vm_compute; reflexivity|].
  eapply (engine_is_never_released (engine_ops := Demo.engine centred) clock
            busy_calls (ready centred)).
  - rewrite Sessions.ready_engine. discriminate.
  - vm_compute. reflexivity.
Defined.

Lemma Initialize_succeeds_at_most_once_demo :
  exists st',
    after_calls (engine_ops := engine centred) clock busy_calls (ready centred)
      = Returns st' /\
    Initialize (engine_ops := engine centred) st' param =
      {| ret := -1; printed := [msg_already_initialized]; after := st' |}.
Proof.
  eexists. split; [vm_compute; reflexivity|].
  eapply (Initialize_succeeds_at_most_once (engine_ops := Demo.engine centred) clock
            fresh param busy_calls).
  vm_compute. reflexivity.
Defined.

Lemma uninitialized_session_is_inert_demo :
  Finalize (engine_ops := engine centred) fresh =
    {| ret := -1; printed := [msg_not_initialized]; after := fresh |} /\
  after_calls (engine_ops := engine centred) clock idle_calls fresh = Returns fresh.
Proof.
  destruct (uninitialized_session_is_inert (engine_ops := Demo.engine centred)
              clock fresh eq_refl) as [H1 H2].
  split; [exact H1|]. apply H2. reflexivity.
Defined.

Lemma facade_returns_and_prints_demo :
  ret (Command (ready centred) 7) = -1 /\
  List.length (printed (Command (ready centred) 7)) = 1%nat.
Proof.
  apply (proj1 (proj2 (proj2 (facade_returns_and_prints
                                (engine_ops := Demo.engine centred) clock
                                (ready centred))))).
Defined.

Lemma Process_failure_touches_nothing_demo :
  exists out,
    Process (engine_ops := engine centred) clock (ready centred) empty_frame no_times
      = Returns out /\
    p_ret out = -1 /\
    p_mat out = empty_frame /\
    p_result out = no_times /\
    time_previous (p_after out) = time_previous (ready centred) /\
    clock_reads (p_after out) = clock_reads (ready centred).
Proof.
  eexists. split; [vm_compute; reflexivity|].
  eapply (Process_failure_touches_nothing (engine_ops := Demo.engine centred) clock
            (ready centred) empty_frame no_times).
  - vm_compute. reflexivity.
  - vm_compute. discriminate.
Defined.

Lemma Process_reports_engine_times_demo :
  exists out,
    Process (engine_ops := engine centred) clock (ready centred) frame no_times
      = Returns out /\
    exists e pose_result e',
      s_pose_engine (ready centred) = Some e /\
      PoseEngine_Process (PoseEngineOps := Demo.engine centred) e frame Result_ctor
        = (kRetOk, pose_result, e') /\
      s_pose_engine (p_after out) = Some e' /\
      p_result out =
        {| r_time_pre_process := time_pre_process pose_result;
           r_time_inference := time_inference pose_result;
           r_time_post_process := time_post_process pose_result |}.
Proof.
  destruct Process_centred_returns as [out [H Hr]].
  exists out. split; [exact H|].
  apply (Process_reports_engine_times (engine_ops := Demo.engine centred) clock
           (ready centred) frame no_times out H Hr).
Defined.

Lemma Process_keeps_size_and_earlier_drawing_demo :
  exists out,
    Process (engine_ops := engine centred) clock (ready centred) marked_frame no_times
      = Returns out /\
    cols (p_mat out) = 640 /\
    rows (p_mat out) = 480 /\
    exists added,
      drawn (p_mat out) = [cv_circle (cv_Point 7 7) 5 color_circle (-1)] ++ added.
Proof.
  eexists. split; [vm_compute; reflexivity|].
  eapply (Process_keeps_size_and_earlier_drawing (engine_ops := Demo.engine centred)
            clock (ready centred) marked_frame no_times).
  vm_compute. reflexivity.
Defined.

Lemma Process_drawing_is_bounded_demo :
  exists out,
    Process (engine_ops := engine centred) clock (ready centred) frame no_times
      = Returns out /\
    exists e pose_result e' part_list added text,
      s_pose_engine (ready centred) = Some e /\
      PoseEngine_Process (PoseEngineOps := Demo.engine centred) e frame Result_ctor
        = (kRetOk, pose_result, e') /\
      index (pose_keypoint_coords pose_result) 0 = Returns part_list /\
      drawn (p_mat out) = drawn frame ++ added ++ [text] /\
      is_text text = true /\
      count_texts added = 0%nat /\
      (count_lines added <= 16)%nat /\
      (count_circles added <= List.length part_list)%nat.
Proof.
  destruct Process_centred_returns as [out [H Hr]].
  exists out. split; [exact H|].
  apply (Process_drawing_is_bounded (engine_ops := Demo.engine centred) clock
           (ready centred) frame no_times out H Hr).
Defined.

Lemma Process_lines_come_with_markers_demo :
  exists out,
    Process (engine_ops := engine nose_and_eye) clock (ready nose_and_eye)
            frame no_times = Returns out /\
    exists added,
      drawn (p_mat out) = drawn frame ++ added /\
      forall p0 p1 color thickness,
        In (cv_line p0 p1 color thickness) added ->
        In (cv_circle p0 5 color_circle (-1)) added /\
        In (cv_circle p1 5 color_circle (-1)) added.
Proof.
  destruct Sessions.Process_nose_and_eye_returns as [out [H _]].
  exists out. split; [exact H|].
  apply (Process_lines_come_with_markers (engine_ops := Demo.engine nose_and_eye)
           clock (ready nose_and_eye) frame no_times out loaded nose_and_eye loaded
           (repeat (half, half) 17) eq_refl eq_refl eq_refl eq_refl H).
Defined.

Lemma Process_draws_nothing_for_NaN_or_low_scores_demo :
  exists out,
    Process (engine_ops := engine nan_scores) clock (ready nan_scores) frame no_times
      = Returns out /\
    exists text, is_text text = true /\ drawn (p_mat out) = drawn frame ++ [text].
Proof.
  eexists. split; [vm_compute; reflexivity|].
  eapply (Process_draws_nothing_for_NaN_or_low_scores
            (engine_ops := Demo.engine nan_scores) clock (ready nan_scores)
            frame no_times _ loaded nan_scores loaded (S754_nan :: repeat low 16)
            eq_refl eq_refl eq_refl nan_scores_low).
  vm_compute. reflexivity.
Defined.

Lemma Process_returns_0_demo :
  exists out,
    Process (engine_ops := engine centred) clock (ready centred) frame no_times
      = Returns out /\
    p_ret out = 0.
Proof.
  apply (Process_returns_0 (engine_ops := Demo.engine centred) clock
           (ready centred) frame no_times loaded centred loaded
           (repeat high 17) (repeat (half, half) 17) eq_refl eq_refl eq_refl eq_refl).
  - vm_compute. discriminate.
  - vm_compute. discriminate.
  - simpl. lia.
  - exact centred_convertible.
Defined.

Lemma Process_undefined_conversion_demo :
  Process (engine_ops := engine nan_coord) clock (ready nan_coord) frame no_times
    = Undefined FloatToInt.
Proof.
  apply (Process_undefined_conversion (engine_ops := Demo.engine nan_coord) clock
           (ready nan_coord) frame no_times loaded nan_coord loaded
           (repeat high 17) ((S754_nan, half) :: repeat (half, half) 16)
           0 (S754_nan, half) eq_refl eq_refl eq_refl eq_refl).
  - vm_compute. discriminate.
  - vm_compute. discriminate.
  - simpl. lia.
  - reflexivity.
  - reflexivity.
  - reflexivity.
  - intros [[x Hx] _]. vm_compute in Hx. discriminate.
Defined.

Lemma Process_draws_small_coordinates_at_origin_demo :
  exists out,
    Process (engine_ops := engine centred) clock (ready centred) frame no_times
      = Returns out /\
    exists added,
      drawn (p_mat out) = drawn frame ++ added /\
      Forall (fun c => c = cv_line (cv_Point 0 0) (cv_Point 0 0) color_line 2 \/
                       c = cv_circle (cv_Point 0 0) 5 color_circle (-1) \/
                       is_text c = true) added.
Proof.
  destruct Process_centred_returns as [out [H _]].
  exists out. split; [exact H|].
  apply (Process_draws_small_coordinates_at_origin
           (engine_ops := Demo.engine centred) clock (ready centred) frame no_times
           out loaded centred loaded (repeat (half, half) 17)
           eq_refl eq_refl eq_refl centred_small H).
Defined.

Lemma Process_twice_returns :
  exists out1 out2,
    Process (engine_ops := engine centred) clock (ready centred) frame no_times
      = Returns out1 /\
    p_ret out1 = 0 /\
    Process (engine_ops := engine centred) clock (p_after out1) frame no_times
      = Returns out2 /\
    p_ret out2 = 0.
Proof. do 2 eexists. repeat split; vm_compute; reflexivity. Qed.

Lemma Process_fps_between_calls_demo :
  exists out1 out2,
    Process (engine_ops := engine centred) clock (ready centred) frame no_times
      = Returns out1 /\
    Process (engine_ops := engine centred) clock (p_after out1) frame no_times
      = Returns out2 /\
    exists n earlier,
      clock_reads (p_after out1) = S n /\
      time_previous (p_after out1) = Some (clock n) /\
      clock_reads (p_after out2) = S (S n) /\
      time_previous (p_after out2) = Some (clock (S n)) /\
      drawn (p_mat out2) =
        earlier ++ [fps_text (clock (S n) - clock n)
                             (r_time_inference (p_result out2))].
Proof.
  destruct Process_twice_returns as [out1 [out2 [H1 [Hr1 [H2 Hr2]]]]].
  exists out1, out2. split; [exact H1|]. split; [exact H2|].
  apply (Process_fps_between_calls (engine_ops := Demo.engine centred) clock
           (ready centred) frame no_times out1 frame no_times out2 H1 Hr1 H2 Hr2).
Defined.

Lemma Process_first_call_reads_clock_twice_demo :
  exists out,
    Process (engine_ops := engine centred) clock (ready centred) frame no_times
      = Returns out /\
    clock_reads (p_after out) = 2%nat.
Proof.
  destruct Process_centred_returns as [out [H Hr]].
  exists out. split; [exact H|].
  apply (proj1 (Process_first_call_reads_clock_twice
                  (engine_ops := Demo.engine centred) clock
                  (ready centred) frame no_times out H Hr) eq_refl).
Defined.

Lemma Process_fps_of_zero_difference_demo :
  exists out,
    Process (engine_ops := engine centred) stalled warm frame no_times = Returns out /\
    exists earlier,
      drawn (p_mat out) =
        earlier ++ [DrawText (snprintf "FPS: %.1f, Inference: %.1f [ms]"
                                       [S754_infinity false;
                                        r_time_inference (p_result out)])
                             (cv_Point 0 0) double_half 2
                             (CreateCvColor 0 0 0) (CreateCvColor 180 180 180) true].
Proof.
  eexists. split; [vm_compute; reflexivity|].
  eapply (Process_fps_of_zero_difference (engine_ops := Demo.engine centred) stalled
            warm frame no_times _ 5 eq_refl eq_refl).
  - vm_compute. reflexivity.
  - reflexivity.
Defined.

Lemma jointLineList_structure_demo :
  exists jointLine,
    In jointLine jointLineList /\ (fst jointLine = 16 \/ snd jointLine = 16).
Proof.
  apply (proj2 (proj2 jointLineList_structure) 16).
  unfold joint_count. lia.
Defined.
End MoreSessions.

(** * A body of 2^31 coordinates *)

Module Crowd.
Import Demo Scenes.

Lemma engine_answers (r : Result_) :
  PoseEngine_Process (PoseEngineOps := engine r) loaded frame Result_ctor
    = (kRetOk, r, loaded).
Proof. reflexivity. Qed.

Lemma one_body_lists (sl : list float) (pl : list (float * float)) :
  index (pose_keypoint_scores (one_body sl pl)) 0 = Returns sl /\
  index (pose_keypoint_coords (one_body sl pl)) 0 = Returns pl.
Proof. split; reflexivity. Qed.

Lemma index_repeat {A : Type} (a : A) (n : nat) (i : Z) :
  0 <= i < Z.of_nat n -> index (repeat a n) i = Returns a.
Proof.
  intros Hi.
  destruct (index_in_range (repeat a n) i) as [b Hb];
    [rewrite repeat_length; assumption|].
  rewrite Hb. f_equal.
  apply index_Returns in Hb. destruct Hb as [_ Hn].
  apply nth_error_In in Hn. apply repeat_spec in Hn. assumption.
Qed.

Lemma crowd_eq : crowd = repeat (half, half) (Z.to_nat (2 ^ 31)).
Proof. unfold crowd. reflexivity. Qed.

Lemma crowd_length : Z.of_nat (List.length crowd) = 2 ^ 31.
Proof. rewrite crowd_eq, repeat_length. apply Z2Nat.id. lia. Qed.

Lemma crowd_convertible : Forall convertible crowd.
Proof.
  rewrite crowd_eq. apply Forall_forall. intros p Hp.
  apply repeat_spec in Hp. subst p. split; eexists; reflexivity.
Qed.

Lemma crowd_first : index crowd 0 = Returns (half, half).
Proof. rewrite crowd_eq. apply index_repeat. lia. Qed.

(** With 2^31 coordinates [part_num] is negative and the marker loop does
    not run: for the scores of [nose_and_eye] a line is drawn for the two
    confident joints and no marker. *)
Lemma Process_beyond_int32 (pl : list (float * float)) :
  Z.of_nat (List.length pl) = 2 ^ 31 ->
  Forall convertible pl ->
  exists out calls,
    Process (engine_ops := engine (one_body (high :: low :: high :: repeat low 14) pl))
            clock (ready (one_body (high :: low :: high :: repeat low 14) pl))
            frame no_times = Returns out /\
    p_ret out = 0 /\
    drawn (p_mat out) = drawn frame ++ calls /\
    count_lines calls = 1%nat /\
    count_circles calls = 0%nat.
Proof.
  intros Hlen Hconv.
  set (sl := high :: low :: high :: repeat low 14).
  set (r := one_body sl pl).
  destruct (one_body_lists sl pl) as [Es Ep]. fold r in Es, Ep.
  assert (Hnum : wrap_int32 (Z.of_nat (List.length pl)) = - 2 ^ 31)
    by (rewrite Hlen; reflexivity).
  (* the two passes return *)
  assert (Hd : exists mat2, draw_result r frame = Returns mat2).
  { unfold draw_result, bind. rewrite Es, Ep, Hnum.
    rewrite (upto_nonpositive (- 2 ^ 31)) by lia.
    destruct (for_each_defined (draw_joint_line sl pl)
                (fun jl => in_both sl pl (fst jl) /\ in_both sl pl (snd jl)))
      with (l := jointLineList) (mat := frame) as [m1 E1].
    - intros m a [H0 H1]. apply draw_joint_line_defined; assumption.
    - eapply Forall_impl; [|apply jointLineList_indices].
      unfold in_both. intros a Ha. rewrite Hlen.
      change (Z.of_nat (List.length sl)) with 17. lia.
    - rewrite E1. exists m1. reflexivity. }
  destruct Hd as [mat2 Hd].
  pose proof (Process_engine_ok clock (ready r) frame no_times loaded r loaded
                (Sessions.ready_engine r) (engine_answers r)) as HP.
  rewrite Hd in HP. unfold bind in HP.
  destruct (Process_engine_ok_Returns clock _ _ _ _ _ _ _
              (Sessions.ready_engine r) (engine_answers r) HP)
    as [sl' [pl' [lines [markers [text [Es' [Ep' [Hl [Hk [Ht Hdr]]]]]]]]]].
  rewrite Es in Es'. rewrite Ep in Ep'.
  inversion Es'; inversion Ep'; subst sl' pl'; clear Es' Ep'.
  rewrite Hnum, (upto_nonpositive (- 2 ^ 31)) in Hk by lia.
  inversion Hk; subst markers.
  pose proof (lines_counted _ _ _ Hl) as [Hll Hlc].
  eexists. exists (lines ++ [] ++ [text]).
  split; [exact HP|]. split; [reflexivity|]. split; [exact Hdr|].
  rewrite !count_lines_app, !count_circles_app, Hll, Hlc.
  unfold count_lines, count_circles. destruct text; try discriminate.
  split; reflexivity.
Qed.

Lemma Process_crowded :
  exists out calls,
    Process (engine_ops := engine crowded) clock (ready crowded) frame no_times
      = Returns out /\
    p_ret out = 0 /\
    drawn (p_mat out) = drawn frame ++ calls /\
    count_lines calls = 1%nat /\
    count_circles calls = 0%nat.
Proof. exact (Process_beyond_int32 crowd crowd_length crowd_convertible). Qed.

(** C4, counterexample.  Keypoint 0 of the crowded body has a coordinate
    and a score of 0.9, yet a [Process] that returns 0 draws no marker
    at all: [part_num] is 2^31 cast to [int32_t], which is negative. *)
Lemma marker_missing_beyond_int32 :
  index crowd 0 = Returns (half, half) /\
  clears (high :: low :: high :: repeat low 14) 0 = true /\
  exists out calls,
    Process (engine_ops := engine crowded) clock (ready crowded) frame no_times
      = Returns out /\
    p_ret out = 0 /\
    drawn (p_mat out) = drawn frame ++ calls /\
    count_circles calls = 0%nat.
Proof.
  split; [exact crowd_first|]. split; [reflexivity|].
  destruct Process_crowded as [out [calls [H [Hr [Hd [_ Hc]]]]]].
  exists out, calls. auto.
Qed.

(** C5, counterexample.  In the crowded body exactly the adjacent joints 0
    and 2 score at least 0.2 and every other score is below, yet a
    [Process] that returns 0 draws one line and no marker instead of two. *)
Lemma two_adjacent_joints_beyond_int32 :
  adjacent 0 2 /\
  clears (high :: low :: high :: repeat low 14) 0 = true /\
  clears (high :: low :: high :: repeat low 14) 2 = true /\
  (forall i s, i <> 0 -> i <> 2 ->
               index (high :: low :: high :: repeat low 14) i = Returns s ->
               Float32.lt s score_threshold = true) /\
  exists out calls,
    Process (engine_ops := engine crowded) clock (ready crowded) frame no_times
      = Returns out /\
    p_ret out = 0 /\
    drawn (p_mat out) = drawn frame ++ calls /\
    count_lines calls = 1%nat /\
    count_circles calls = 0%nat /\
    count_circles calls <> 2%nat.
Proof.
  split; [left; simpl; auto|]. split; [reflexivity|]. split; [reflexivity|].
  split; [exact Sessions.nose_and_eye_rest|].
  destruct Process_crowded as [out [calls [H [Hr [Hd [Hl Hc]]]]]].
  exists out, calls. repeat (split; [assumption|]). rewrite Hc. discriminate.
Qed.
End Crowd.
